(** * sdkboil.deserializers: a shallow embedding and its properties

    The module [sdkboil/deserializers.py] turns a response body into SDK
    objects.  Its functions are embedded below as Rocq functions over a model
    of the Python values they handle:

    - a decoded JSON document is a [json] tree; a Python [dict] is an
      association list in insertion order, since the code iterates over
      dictionaries;
    - a raised exception is the [Raise] case of the [result] monad;
    - a class is described by what the functions ask of it: whether it
      derives from [SdkObject] or [SdkCollectionObject], the parameters of
      its [__init__], its [sub_objects] and its [elements_class];
    - the nesting of Python calls is bounded by a recursion depth, as the
      interpreter bounds it; running out of it is [RecursionError]. *)

From Stdlib Require Import List String Ascii ZArith Bool Lia.
Import ListNotations.
Local Open Scope string_scope.
Local Open Scope list_scope.

Set Warnings "-register-all".

(** ** Exceptions and the result monad *)

Inductive type_error : Type :=
| BadSubscript                (* x[key], key a str, on a value that is not a dict *)
| NotIterable                 (* iteration over a number, a boolean or None *)
| Unhashable                  (* a list or a dict used as a dictionary key *)
| NotAClass                   (* issubclass() arg 1 must be a class *)
| NotCallable                 (* calling a value that is not a class *)
| MultipleValues (name : string)      (* got multiple values for argument *)
| UnexpectedKeyword (name : string)   (* got an unexpected keyword argument *)
| PositionalOnlyKeyword (name : string) (* positional-only passed as keyword *)
| MissingRequired (names : list string) (* missing required arguments *)
| TooManyPositional.          (* takes 1 positional argument but 2 were given *)

Inductive exception : Type :=
| MissingContentTypeException (msg : string)
| UnknownContentTypeException (msg : string)
| JSONDecodeError
| KeyError (key : string)
| IndexError
| AttributeError (attr : string)
| TypeError (why : type_error)
| RecursionError.

Inductive result (A : Type) : Type :=
| Ok (a : A)
| Raise (e : exception).

Arguments Ok {A} a.
Arguments Raise {A} e.

Definition bind {A B : Type} (r : result A) (k : A -> result B) : result B :=
  match r with
  | Ok a => k a
  | Raise e => Raise e
  end.

Notation "x <- r ;; k" := (bind r (fun x => k))
  (at level 61, r at next level, right associativity).

(** ** Decoded JSON documents *)

(** What [json.loads] returns.  A float keeps its decimal literal
    [mantissa * 10 ^ exponent]; the deserializers never look inside a
    number. *)
Inductive json : Type :=
| JNull
| JBool (b : bool)
| JInt (n : Z)
| JFloat (mantissa exponent : Z)
| JString (s : string)
| JArray (items : list json)
| JObject (fields : list (string * json)).

Definition pydict : Type := list (string * json).

Definition keys (d : pydict) : list string := map fst d.

(** [key in d]. *)
Definition contains {V : Type} (d : list (string * V)) (key : string) : bool :=
  existsb (fun kv => String.eqb (fst kv) key) d.

Fixpoint dict_get (d : pydict) (key : string) : option json :=
  match d with
  | [] => None
  | (k, v) :: d' => if String.eqb k key then Some v else dict_get d' key
  end.

(** [d[key] = v]: an existing key keeps its place, a new one goes last. *)
Fixpoint dict_set (d : pydict) (key : string) (v : json) : pydict :=
  match d with
  | [] => [(key, v)]
  | (k, w) :: d' =>
      if String.eqb k key then (k, v) :: d' else (k, w) :: dict_set d' key v
  end.

(** [x[key]] for a [str] key. *)
Definition getitem (x : json) (key : string) : result json :=
  match x with
  | JObject d =>
      match dict_get d key with
      | Some v => Ok v
      | None => Raise (KeyError key)
      end
  | _ => Raise (TypeError BadSubscript)
  end.

(** [x[key] = v] for a [str] key, seen as the new value of [x]. *)
Definition setitem (x : json) (key : string) (v : json) : result json :=
  match x with
  | JObject d => Ok (JObject (dict_set d key v))
  | _ => Raise (TypeError BadSubscript)
  end.

(** A string holds the UTF-8 bytes of a Python [str].  A byte [10xxxxxx]
    continues the character that the bytes before it began. *)
Definition is_continuation (c : ascii) : bool :=
  match c with
  | Ascii _ _ _ _ _ _ b6 b7 => b7 && negb b6
  end.

Definition continues (s : string) : bool :=
  match s with
  | String c _ => is_continuation c
  | EmptyString => false
  end.

(** The characters of a [str], one string for each: a leading byte with
    the continuation bytes that follow it. *)
Fixpoint chars (s : string) : list json :=
  match s with
  | EmptyString => []
  | String c s' =>
      if continues s'
      then match chars s' with
           | JString w :: rest => JString (String c w) :: rest
           | rest => JString (String c EmptyString) :: rest
           end
      else JString (String c EmptyString) :: chars s'
  end.

(** The items that [for el in x] visits. *)
Definition iterate (x : json) : result (list json) :=
  match x with
  | JArray items => Ok items
  | JObject d => Ok (map JString (keys d))
  | JString s => Ok (chars s)
  | _ => Raise (TypeError NotIterable)
  end.

(** [namespace.split('.')]. *)
Fixpoint split_dot (s : string) : list string :=
  match s with
  | EmptyString => [EmptyString]
  | String c s' =>
      if Ascii.eqb c "."%char then EmptyString :: split_dot s'
      else match split_dot s' with
           | [] => [String c EmptyString]
           | w :: ws => String c w :: ws
           end
  end.

(** ** Format selection *)

Inductive deserializer : Type :=
| JsonDeserializer
| FormDeserializer.

Section FormatSelector.

(** The two constants of [sdkboil/headers.py]. *)
Variables APPLICATION_JSON APPLICATION_FORM_URLENCODED : string.

(** [content_type] is [None] or a [str]; [not content_type] holds of
    [None] and of the empty string. *)
Definition _get_deserializer (content_type : option string)
  : result deserializer :=
  match content_type with
  | None | Some EmptyString =>
      Raise (MissingContentTypeException
        "Cannot get correct serializer without defining the Content-Type")
  | Some ct =>
      if String.eqb ct APPLICATION_JSON then Ok JsonDeserializer
      else if String.eqb ct APPLICATION_FORM_URLENCODED then Ok FormDeserializer
      else Raise (UnknownContentTypeException
                    ("Unsupported Content-Type: " ++ ct))
  end.

End FormatSelector.

(** ** Classes *)

(** The kinds of parameters of a Python function. *)
Inductive kind : Type :=
| PositionalOnly
| PositionalOrKeyword
| VarPositional
| KeywordOnly
| VarKeyword.

Definition kind_eqb (a b : kind) : bool :=
  match a, b with
  | PositionalOnly, PositionalOnly
  | PositionalOrKeyword, PositionalOrKeyword
  | VarPositional, VarPositional
  | KeywordOnly, KeywordOnly
  | VarKeyword, VarKeyword => true
  | _, _ => false
  end.

(** A parameter as [inspect.signature] describes it. *)
Record formal : Type := Formal {
  fname : string;
  fkind : kind;
  fdefault : bool
}.

(** [inspect.signature(class_.__init__).parameters], in order: the
    receiver, whatever its name, comes first with the positional
    parameters. *)
Definition signature : Type := list formal.

(** A parameter of a conventional [__init__], written
    [def __init__(self, a, b=None)]: positional or keyword, after a
    receiver named [self]. *)
Record parameter : Type := Parameter_ {
  pname : string;
  has_default : bool
}.

Definition formal_of (p : parameter) : formal :=
  Formal (pname p) PositionalOrKeyword (has_default p).

Definition conventional (init : list parameter) : signature :=
  Formal "self" PositionalOrKeyword false :: map formal_of init.

(** A value of the [sub_objects] dictionary: a class, or a list whose first
    item is the class of the elements of an array. *)
Inductive nested (C : Type) : Type :=
| Single (class_ : C)
| Marker (classes : list C).

Arguments Single {C} class_.
Arguments Marker {C} classes.

(** Modelled from the spec: [sdkboil/object.py], which declares [SdkObject]
    and [SdkCollectionObject], is absent.  A target type exposes its
    constructor parameters, a sub-object schema (possibly empty) and a tag
    telling a plain object type from a collection type; a collection type
    exposes its element type as well.  [OtherClass] is a class outside both
    hierarchies, and [PyNone] the value [None] standing where a class is
    expected.  Each class carries the signature of its [__init__]. *)
Inductive pyclass : Type :=
| PyNone
| OtherClass (name : string) (init : signature)
| ObjectClass (name : string) (init : signature)
    (sub_objects : list (string * nested pyclass))
| CollectionClass (name : string) (init : signature)
    (sub_objects : list (string * nested pyclass))
    (elements_class : pyclass).

Definition schema : Type := list (string * nested pyclass).

(** The classes whose [__init__] is conventional. *)
Definition PyClass (name : string) (init : list parameter) : pyclass :=
  OtherClass name (conventional init).

Definition SdkObjectClass (name : string) (init : list parameter)
    (sub_objects : schema) : pyclass :=
  ObjectClass name (conventional init) sub_objects.

Definition SdkCollectionClass (name : string) (init : list parameter)
    (sub_objects : schema) (elements_class : pyclass) : pyclass :=
  CollectionClass name (conventional init) sub_objects elements_class.

(** [inspect.signature(class_.__init__)]; for [None] it is that of the
    bound [object.__init__], [( *args, **kwargs)]. *)
Definition signature_of (class_ : pyclass) : signature :=
  match class_ with
  | PyNone => [Formal "args" VarPositional false;
               Formal "kwargs" VarKeyword false]
  | OtherClass _ init
  | ObjectClass _ init _
  | CollectionClass _ init _ _ => init
  end.

(** [class_.sub_objects]. *)
Definition get_sub_objects (class_ : pyclass) : result schema :=
  match class_ with
  | ObjectClass _ _ sub_objects
  | CollectionClass _ _ sub_objects _ => Ok sub_objects
  | PyNone | OtherClass _ _ => Raise (AttributeError "sub_objects")
  end.

(** [issubclass(class_, SdkCollectionObject)]. *)
Definition is_collection (class_ : pyclass) : bool :=
  match class_ with CollectionClass _ _ _ _ => true | _ => false end.

(** [issubclass(class_, SdkObject)] for a class that is not a collection. *)
Definition is_plain_object (class_ : pyclass) : bool :=
  match class_ with ObjectClass _ _ _ => true | _ => false end.

(** ** Calling a class *)

(** What a deserializer returns: the decoded document itself, or the
    instance that a call of the class built, with the arguments its
    [__init__] received besides the instance: those bound to a parameter
    by position or by keyword, then the tuple of the positional arguments
    in excess under the name of the [*args] parameter and the dictionary
    of the keywords in excess under the name of the [**kwargs] one, where
    there are any. *)
Inductive pyvalue : Type :=
| Raw (v : json)
| Instance (class_ : pyclass) (arguments : pydict).

Definition names (init : list parameter) : list string := map pname init.

Definition fnames (sig : signature) : list string := map fname sig.

Definition mem (x : string) (l : list string) : bool :=
  existsb (String.eqb x) l.

Definition is_positional (f : formal) : bool :=
  match fkind f with
  | PositionalOnly | PositionalOrKeyword => true
  | _ => false
  end.

Definition takes_keyword (f : formal) : bool :=
  match fkind f with
  | PositionalOrKeyword | KeywordOnly => true
  | _ => false
  end.

Definition of_kind (k : kind) (f : formal) : bool := kind_eqb (fkind f) k.

Definition has_kind (k : kind) (sig : signature) : bool :=
  existsb (of_kind k) sig.

(** Binding of the keyword arguments, in the order of the call.  A keyword
    that names a positional-or-keyword or keyword-only parameter gives it
    its value, unless the parameter has one already: [taken] lists the
    names filled by position that [bound] does not hold, the receiver's.
    Any other keyword goes to the [**kwargs] dictionary where the
    signature has one, and is an error otherwise. *)
Fixpoint bind_keywords (sig : signature) (taken : list string)
    (bound extra : pydict) (kwargs : pydict) : result (pydict * pydict) :=
  match kwargs with
  | [] => Ok (bound, extra)
  | (k, v) :: kwargs' =>
      if mem k (fnames (filter takes_keyword sig))
      then if mem k taken || contains bound k
           then Raise (TypeError (MultipleValues k))
           else bind_keywords sig taken (bound ++ [(k, v)]) extra kwargs'
      else if has_kind VarKeyword sig
      then bind_keywords sig taken bound (extra ++ [(k, v)]) kwargs'
      else if mem k (fnames (filter (of_kind PositionalOnly) sig))
      then Raise (TypeError (PositionalOnlyKeyword k))
      else Raise (TypeError (UnexpectedKeyword k))
  end.

(** The signature without the parameter that receives the instance, its
    first positional one. *)
Fixpoint drop_receiver (sig : signature) : signature :=
  match sig with
  | [] => []
  | f :: sig' => if is_positional f then sig' else f :: drop_receiver sig'
  end.

(** A parameter that still needs an argument: it has no default and no
    value. *)
Definition unfilled (bound : pydict) (f : formal) : bool :=
  negb (fdefault f) && negb (contains bound (fname f)).

Definition missing (select : formal -> bool) (sig : signature)
    (bound : pydict) : list string :=
  fnames (filter (fun f => select f && unfilled bound f) sig).

(** The name of the [*args] or of the [**kwargs] parameter with what it
    receives, when it receives anything. *)
Definition starred (k : kind) (sig : signature) (received : json)
    (nothing : bool) : pydict :=
  match filter (of_kind k) sig with
  | f :: _ => if nothing then [] else [(fname f, received)]
  | [] => []
  end.

(** The name under which [__init__] receives the new instance: that of
    its first positional parameter, if it has one. *)
Definition receiver (sig : signature) : list string :=
  firstn 1 (fnames (filter is_positional sig)).

(** A call of [class_] with positional and keyword arguments, as Python
    binds the arguments of [__init__]: the new instance is the first
    positional argument; the positional arguments fill the positional
    parameters from the left and those in excess go to [*args]; the
    keywords come next; then positional arguments in excess without
    [*args] are an error, and so is a positional parameter, then a
    keyword-only one, left without a value and without a default. *)
Definition call (class_ : pyclass) (args : list json) (kwargs : pydict)
  : result pyvalue :=
  match class_ with
  | PyNone => Raise (TypeError NotCallable)
  | _ =>
      let sig := signature_of class_ in
      let slots := fnames (filter is_positional sig) in
      let positional := combine (skipn 1 slots) args in
      let excess := skipn (List.length (skipn 1 slots)) args in
      binding <- bind_keywords sig (receiver sig) positional [] kwargs ;;
      let bound := fst binding in
      let extra := snd binding in
      if Nat.ltb (List.length slots) (S (List.length args))
         && negb (has_kind VarPositional sig)
      then Raise (TypeError TooManyPositional)
      else match missing is_positional (drop_receiver sig) bound with
           | (_ :: _) as required =>
               Raise (TypeError (MissingRequired required))
           | [] =>
               match missing (of_kind KeywordOnly) sig bound with
               | (_ :: _) as required =>
                   Raise (TypeError (MissingRequired required))
               | [] =>
                   Ok (Instance class_
                         (bound
                          ++ starred VarPositional sig (JArray excess)
                               (Nat.eqb (List.length excess) 0)
                          ++ starred VarKeyword sig (JObject extra)
                               (Nat.eqb (List.length extra) 0)))
               end
           end
  end.

(** ** The JSON deserializer *)

Fixpoint mapM {A B : Type} (f : A -> result B) (l : list A) : result (list B) :=
  match l with
  | [] => Ok []
  | x :: l' => y <- f x ;; ys <- mapM f l' ;; Ok (y :: ys)
  end.

(** A [for] loop that rebinds one variable and that an exception leaves. *)
Fixpoint foldM {A S : Type} (step : S -> A -> result S) (l : list A) (s : S)
  : result S :=
  match l with
  | [] => Ok s
  | x :: l' => s' <- step s x ;; foldM step l' s'
  end.

(** The loop [for key in path: dict_ = dict_[key]] followed by [body] on the
    dictionary it reaches.  [body] updates that dictionary in place, and the
    caller keeps the outermost one: the result is the outermost dictionary
    as it reads after the update.  A decoded document is a tree, no value
    is shared between two places of it, so the update shows nowhere else. *)
Fixpoint inside (path : list string) (dict_ : json)
    (body : json -> result json) : result json :=
  match path with
  | [] => body dict_
  | key :: path' =>
      inner <- getitem dict_ key ;;
      inner' <- inside path' inner body ;;
      setitem dict_ key inner'
  end.

(** [class_[0]] on the list of an array marker. *)
Definition first_class (classes : list pyclass) : result pyclass :=
  match classes with
  | [] => Raise IndexError
  | c :: _ => Ok c
  end.

(** The keys of [dict(inspect.signature(class_.__init__).parameters)]:
    [class_.__init__] is the plain function, so every parameter of its
    signature is listed, the receiver with the rest. *)
Definition init_parameters (class_ : pyclass) : list string :=
  fnames (signature_of class_).

(** The loop of [_get_init_args] over the items that iterating [dict_]
    yields.  [param in init_parameters] hashes [param]; a number, a boolean
    or [None] is no parameter name. *)
Fixpoint init_args_loop (params : list string) (dict_ : json)
    (items : list json) (init_args : pydict) : result pydict :=
  match items with
  | [] => Ok init_args
  | JString param :: items' =>
      if mem param params
      then v <- getitem dict_ param ;;
           init_args_loop params dict_ items' (dict_set init_args param v)
      else init_args_loop params dict_ items' init_args
  | JArray _ :: _ | JObject _ :: _ => Raise (TypeError Unhashable)
  | _ :: items' => init_args_loop params dict_ items' init_args
  end.

Definition _get_init_args (class_ : pyclass) (dict_ : json) : result pydict :=
  items <- iterate dict_ ;;
  init_args_loop (init_parameters class_) dict_ items [].

Section Json.

(** [json.loads], of the Python library: [None] stands for a
    [JSONDecodeError]. *)
Variable json_loads : string -> option json.

(** The attribute [SdkCollectionObject.elements_class] of the base class,
    declared in [sdkboil/object.py]. *)
Variable base_elements_class : pyclass.

Fixpoint _deserialize_dict (depth : nat) (class_ : pyclass) (dict_ : json)
    {struct depth} : result json :=
  match depth with
  | O => Raise RecursionError
  | S depth' =>
      sub_objects <- get_sub_objects class_ ;;
      foldM (fun dict_ entry =>
               _deserialize_sub_object depth' (fst entry) (snd entry) dict_)
            sub_objects dict_
  end

with _deserialize_sub_object (depth : nat) (namespace : string)
    (class_ : nested pyclass) (dict_ : json) {struct depth} : result json :=
  match depth with
  | O => Raise RecursionError
  | S depth' =>
      let keys := split_dot namespace in
      let last_key := last keys EmptyString in
      inside (removelast keys) dict_ (fun dict_ =>
        v <- match class_ with
             | Marker classes =>
                 elements_class <- first_class classes ;;
                 array <- getitem dict_ last_key ;;
                 _deserialize_array depth' elements_class array
             | Single class_ =>
                 sub_dict <- getitem dict_ last_key ;;
                 _deserialize_dict depth' class_ sub_dict
             end ;;
        setitem dict_ last_key v)
  end

with _deserialize_array (depth : nat) (elements_class : pyclass)
    (array : json) {struct depth} : result json :=
  match depth with
  | O => Raise RecursionError
  | S depth' =>
      match elements_class with
      | PyNone => Raise (TypeError NotAClass)
      | CollectionClass _ _ _ _ =>
          _deserialize_array depth' base_elements_class array
      | ObjectClass _ _ _ =>
          items <- iterate array ;;
          elements <- mapM (_deserialize_dict depth' elements_class) items ;;
          Ok (JArray elements)
      | OtherClass _ _ => Ok array
      end
  end.

(** The body of [deserialize] once [json_data] is decoded. *)
Definition deserialize_json_data (depth : nat) (class_ : pyclass)
    (json_data : json) : result pyvalue :=
  match class_ with
  | PyNone => Raise (TypeError NotAClass)
  | CollectionClass _ _ _ elements_class =>
      elements <- _deserialize_array depth elements_class json_data ;;
      call class_ [elements] []
  | ObjectClass _ _ _ =>
      dict_ <- _deserialize_dict depth class_ json_data ;;
      init_args <- _get_init_args class_ dict_ ;;
      call class_ [] init_args
  | OtherClass _ _ => Ok (Raw json_data)
  end.

Definition deserialize (depth : nat) (class_ : pyclass)
    (json_string : string) : result pyvalue :=
  match json_loads json_string with
  | None => Raise JSONDecodeError
  | Some json_data => deserialize_json_data depth class_ json_data
  end.

End Json.

(** ** The form deserializer *)

(** [FormDeserializer.deserialize(raw, class_)]: [class_] called with the
    items of [raw] as keyword arguments. *)
Definition FormDeserializer_deserialize (raw : pydict) (class_ : pyclass) : result pyvalue :=
  call class_ [] raw.

(** ** Vocabulary of the statements *)

(** The items that [_get_init_args] keeps. *)
Definition accepted (class_ : pyclass) (item : string * json) : bool :=
  mem (fst item) (init_parameters class_).

(** A mapping is turned into a mapping with the same keys in the same
    order. *)
Definition same_keys (x x' : json) : Prop :=
  forall d, x = JObject d -> exists d', x' = JObject d' /\ keys d' = keys d.

(** Following [path] from [x] goes through mappings only and ends on a
    mapping: what the loop over the segments before the last needs. *)
Fixpoint reaches_mapping (path : list string) (x : json) : bool :=
  match x with
  | JObject d =>
      match path with
      | [] => true
      | key :: path' =>
          match dict_get d key with
          | Some v => reaches_mapping path' v
          | None => false
          end
      end
  | _ => false
  end.

(** The exceptions of a subscript along [path]: [KeyError] with the absent
    segment, [TypeError] on a value that is no mapping. *)
Definition path_error (path : list string) (e : exception) : Prop :=
  (exists key, In key path /\ e = KeyError key) \/ e = TypeError BadSubscript.

(** The loop of [_deserialize_dict] over some entries of [sub_objects],
    its calls running at [depth]. *)
Definition resolve_all (base : pyclass) (depth : nat) (entries : schema)
    (dict_ : json) : result json :=
  foldM (fun dict_ entry =>
           _deserialize_sub_object base depth (fst entry) (snd entry) dict_)
        entries dict_.

Definition keeps_unreachable (x x' : json) : Prop :=
  forall path, reaches_mapping path x = false -> reaches_mapping path x' = false.

(** Resolution at a given depth resolves no path that did not resolve
    before, for each of the three functions. *)
Definition dict_keeps (base : pyclass) (depth : nat) : Prop :=
  forall class_ x r,
    _deserialize_dict base depth class_ x = Ok r -> keeps_unreachable x r.

Definition sub_object_keeps (base : pyclass) (depth : nat) : Prop :=
  forall namespace class_ x r,
    _deserialize_sub_object base depth namespace class_ x = Ok r ->
    keeps_unreachable x r.

Definition array_keeps (base : pyclass) (depth : nat) : Prop :=
  forall class_ x r,
    _deserialize_array base depth class_ x = Ok r -> keeps_unreachable x r.

Definition is_sequence (x : json) : bool :=
  match x with JArray _ => true | _ => false end.

(** [None], a boolean or a number. *)
Definition is_scalar (x : json) : bool :=
  match x with
  | JNull | JBool _ | JInt _ | JFloat _ _ => true
  | _ => false
  end.

(** [g] returns what [f] returns, unless [f] ran out of recursion depth. *)
Definition settles {A B : Type} (f g : A -> result B) : Prop :=
  forall a r, f a = r -> r <> Raise RecursionError -> g a = r.

(** The value that the subscripts [x[k1][k2]...] of a path reach, each one
    on a mapping that has the key; [None] if one of them raises. *)
Fixpoint lookup_path (path : list string) (x : json) : option json :=
  match path with
  | [] => Some x
  | key :: path' =>
      match x with
      | JObject d =>
          match dict_get d key with
          | Some v => lookup_path path' v
          | None => None
          end
      | _ => None
      end
  end.

Definition keeps_missing (x x' : json) : Prop :=
  forall path, lookup_path path x = None -> lookup_path path x' = None.

(** A class whose entries can only be checked for presence: each names a
    single nested class of the same sort, or an array of a class outside
    the SDK hierarchies. *)
Fixpoint presence_only (class_ : pyclass) : bool :=
  match class_ with
  | ObjectClass _ _ sub_objects
  | CollectionClass _ _ sub_objects _ =>
      forallb (fun entry : string * nested pyclass =>
                 match snd entry with
                 | Single c => presence_only c
                 | Marker (OtherClass _ _ :: _) => true
                 | Marker _ => false
                 end) sub_objects
  | PyNone | OtherClass _ _ => true
  end.

(** What [presence_only] asks of one entry. *)
Definition presence_entry (entry : string * nested pyclass) : bool :=
  match snd entry with
  | Single c => presence_only c
  | Marker (OtherClass _ _ :: _) => true
  | Marker _ => false
  end.

Definition is_ok {A : Type} (r : result A) : bool :=
  match r with Ok _ => true | Raise _ => false end.

(** ['.'.join(path)]. *)
Fixpoint join_dot (path : list string) : string :=
  match path with
  | [] => EmptyString
  | [key] => key
  | key :: path' => (key ++ "." ++ join_dot path')%string
  end.

Fixpoint has_dot (s : string) : bool :=
  match s with
  | EmptyString => false
  | String c s' => Ascii.eqb c "."%char || has_dot s'
  end.

(** The result is not [RecursionError]: the depth allowed was enough. *)
Definition finishes {A : Type} (r : result A) : Prop :=
  r <> Raise RecursionError.

(** How deep the functions can go into a document: one level for each
    mapping or array on the way down.  A string counts one level where it
    is the value of a key, since an array marker turns it into the array of
    its characters, and none where it is an element of an array. *)
Fixpoint rank (x : json) : nat :=
  match x with
  | JString _ => 1
  | JArray items =>
      S (fold_right (fun el n =>
                       Nat.max (match el with JString _ => 0 | _ => rank el end) n)
                    0 items)
  | JObject fields =>
      S (fold_right (fun item n => Nat.max (rank (snd item)) n) 0 fields)
  | _ => 0
  end.

Definition element_rank (el : json) : nat :=
  match el with JString _ => 0 | _ => rank el end.

(** The parameters that a constructor call gives values to: those of
    [__init__] but the receiver, which is the instance itself. *)
Definition constructor_parameters (class_ : pyclass) : list string :=
  fnames (drop_receiver (signature_of class_)).

(** The parameters of the signature that a call has to give a value to:
    positional or keyword-only, without a default, the receiver apart. *)
Definition required_formals (sig : signature) : list formal :=
  filter (fun f => (is_positional f || of_kind KeywordOnly f)
                   && negb (fdefault f))
         (drop_receiver sig).

(** The names that a keyword argument can give a value to: those of the
    positional-or-keyword and keyword-only parameters, the receiver
    apart. *)
Definition keyword_names (sig : signature) : list string :=
  filter (fun name => negb (mem name (receiver sig)))
         (fnames (filter takes_keyword sig)).


(** ** Sample classes and documents

    Concrete inputs on which the statements below are run. *)

Definition required (name : string) : parameter := Parameter_ name false.
Definition optional (name : string) : parameter := Parameter_ name true.

Definition Owner : pyclass := SdkObjectClass "Owner" [required "name"] [].

Definition Account : pyclass :=
  SdkObjectClass "Account" [required "id"; optional "note"]
    [("meta.owner", Single Owner); ("tags", Marker [Owner])].

Definition Text : pyclass := PyClass "str" [optional "object"].

Definition Accounts : pyclass :=
  SdkCollectionClass "Accounts" [required "elements"] [] Account.

Definition Owners : pyclass :=
  SdkCollectionClass "Owners" [required "elements"] [] Owner.

Definition Texts : pyclass :=
  SdkCollectionClass "Texts" [required "elements"] [] Text.

(** A collection of collections. *)
Definition AccountPages : pyclass :=
  SdkCollectionClass "AccountPages" [required "elements"] [] Accounts.

(** A class whose [__init__] names its receiver [this], one that takes any
    keyword, and one with a keyword-only parameter. *)
Definition Renamed : pyclass :=
  ObjectClass "Renamed"
    [Formal "this" PositionalOrKeyword false;
     Formal "name" PositionalOrKeyword false] [].


Definition Tagged : pyclass :=
  ObjectClass "Tagged"
    [Formal "self" PositionalOnly false; Formal "tag" KeywordOnly false] [].

(** A class with a nested class that has sub-objects of its own, and a
    document for it. *)
Definition Holder : pyclass :=
  SdkObjectClass "Holder" [required "account"] [("account", Single Account)].


Definition dquote : string := String (ascii_of_nat 34) EmptyString.

Definition quoted (s : string) : string := (dquote ++ s ++ dquote)%string.

(** A few texts with the documents [json.loads] decodes them into; the
    last one is cut short. *)
Definition sample_documents : list (string * option json) :=
  [ ("null", Some JNull);
    (("{" ++ quoted "self" ++ ": 1, " ++ quoted "name" ++ ": 2}")%string,
     Some (JObject [("self", JInt 1); ("name", JInt 2)]));
    (("{" ++ quoted "id" ++ ": 7, " ++ quoted "meta" ++ ": 5}")%string,
     Some (JObject [("id", JInt 7); ("meta", JInt 5)]));
    (("{" ++ quoted "a" ++ ": 1}")%string, Some (JObject [("a", JInt 1)]));
    (("{" ++ quoted "id" ++ ": 7")%string, None) ].

(** A decoder that knows the sample texts only; the statements take any
    decoder, this one runs them. *)
Fixpoint loads_from (table : list (string * option json)) (text : string)
  : option json :=
  match table with
  | [] => None
  | (t, doc) :: table' => if String.eqb t text then doc else loads_from table' text
  end.

Definition loads_sample : string -> option json := loads_from sample_documents.

(** The text of an array and its document. *)
Definition array_documents : list (string * option json) :=
  [ (("[{" ++ quoted "name" ++ ": 1, " ++ quoted "x" ++ ": 9}]")%string,
     Some (JArray [JObject [("name", JInt 1); ("x", JInt 9)]])) ].

Definition loads_array : string -> option json := loads_from array_documents.

(** Texts of two documents for [Account], the first with a key [self],
    the second with the nested values of its schema and a key that
    [__init__] does not take. *)
Definition account_self_text : string :=
  ("{" ++ quoted "self" ++ ": 1, " ++ quoted "id" ++ ": 2, "
       ++ quoted "meta" ++ ": {" ++ quoted "owner" ++ ": {}}, "
       ++ quoted "tags" ++ ": []}")%string.

Definition account_self_document : pydict :=
  [("self", JInt 1); ("id", JInt 2);
   ("meta", JObject [("owner", JObject [])]); ("tags", JArray [])].

Definition account_text : string :=
  ("{" ++ quoted "id" ++ ": 7, "
       ++ quoted "meta" ++ ": {" ++ quoted "owner" ++ ": {"
       ++ quoted "name" ++ ": " ++ quoted "a" ++ ", " ++ quoted "x" ++ ": 1}}, "
       ++ quoted "tags" ++ ": [{" ++ quoted "name" ++ ": " ++ quoted "t" ++ "}], "
       ++ quoted "extra" ++ ": null}")%string.

Definition account_document : pydict :=
  [("id", JInt 7);
   ("meta", JObject [("owner", JObject [("name", JString "a"); ("x", JInt 1)])]);
   ("tags", JArray [JObject [("name", JString "t")]]);
   ("extra", JNull)].

Definition account_documents : list (string * option json) :=
  [ (account_self_text, Some (JObject account_self_document));
    (account_text, Some (JObject account_document)) ].

Definition loads_account : string -> option json := loads_from account_documents.

(** A string of two characters, the first of which takes two bytes in
    UTF-8: e with an acute accent, then t. *)
Definition accented : string :=
  String (ascii_of_nat 195) (String (ascii_of_nat 169) "t").

Definition acute_e : string :=
  String (ascii_of_nat 195) (String (ascii_of_nat 169) EmptyString).
(** ** Format selection: properties *)

(** C5: the format selector is a lookup.  With the two media types non-empty
    and distinct, the JSON media type selects [JsonDeserializer], the
    form-urlencoded one [FormDeserializer], any other non-empty string raises
    [UnknownContentTypeException] with that string in its message, and
    [None] and the empty string raise [MissingContentTypeException]. *)
Theorem get_deserializer_lookup (json_type form_type : string) :
  json_type <> "" -> form_type <> "" -> json_type <> form_type ->
  _get_deserializer json_type form_type (Some json_type) = Ok JsonDeserializer /\
  _get_deserializer json_type form_type (Some form_type) = Ok FormDeserializer /\
  (forall ct, ct <> "" -> ct <> json_type -> ct <> form_type ->
     _get_deserializer json_type form_type (Some ct)
     = Raise (UnknownContentTypeException ("Unsupported Content-Type: " ++ ct))) /\
  (exists msg,
     _get_deserializer json_type form_type None
     = Raise (MissingContentTypeException msg) /\
     _get_deserializer json_type form_type (Some "")
     = Raise (MissingContentTypeException msg)).
Proof.
  intros Hjson Hform Hdistinct.
  repeat split.
  - destruct json_type; [congruence|].
    unfold _get_deserializer. now rewrite String.eqb_refl.
  - destruct form_type; [congruence|].
    unfold _get_deserializer.
    apply not_eq_sym, String.eqb_neq in Hdistinct.
    now rewrite Hdistinct, String.eqb_refl.
  - intros ct Hne Hj Hf.
    destruct ct; [congruence|].
    unfold _get_deserializer.
    apply String.eqb_neq in Hj, Hf.
    now rewrite Hj, Hf.
  - eexists. split; reflexivity.
Qed.

Lemma get_deserializer_lookup_witness :
  _get_deserializer "application/json" "application/x-www-form-urlencoded"
    (Some "application/json") = Ok JsonDeserializer.
Proof.
  apply (get_deserializer_lookup
           "application/json" "application/x-www-form-urlencoded");
    discriminate.
Defined.

(** ** The JSON deserializer: decoding and plain classes *)



(** C8: for a class that derives neither from [SdkCollectionObject] nor
    from [SdkObject], [deserialize] returns the decoded document as it is:
    nothing is filtered and no class is called. *)
Theorem deserialize_other_class_passthrough
    (json_loads : string -> option json) (base : pyclass) (depth : nat)
    (class_ : pyclass) (text : string) (json_data : json) :
  json_loads text = Some json_data ->
  class_ <> PyNone ->
  is_collection class_ = false ->
  is_plain_object class_ = false ->
  deserialize json_loads base depth class_ text = Ok (Raw json_data).
Proof.
  intros Hparse Hclass Hcoll Hobj. unfold deserialize. rewrite Hparse.
  destruct class_; simpl in *; congruence.
Qed.

Lemma deserialize_other_class_passthrough_witness :
  deserialize loads_sample PyNone 0 Text "null" = Ok (Raw JNull).
Proof.
  apply (deserialize_other_class_passthrough loads_sample PyNone 0
           Text "null" JNull);
    [reflexivity | discriminate | reflexivity | reflexivity].
Defined.

(** ** Dictionaries *)

Lemma mem_In (x : string) (l : list string) : mem x l = true <-> In x l.
Proof.
  unfold mem. rewrite existsb_exists. split.
  - intros [y [Hin Heq]]. apply String.eqb_eq in Heq. now subst.
  - intros Hin. exists x. split; [assumption | apply String.eqb_refl].
Qed.

Lemma contains_In {V : Type} (d : list (string * V)) (key : string) :
  contains d key = true <-> In key (map fst d).
Proof.
  unfold contains. rewrite existsb_exists, in_map_iff. split.
  - intros [kv [Hin Heq]]. apply String.eqb_eq in Heq. now exists kv.
  - intros [kv [Heq Hin]]. exists kv. split; [assumption|].
    now apply String.eqb_eq.
Qed.

Lemma contains_false {V : Type} (d : list (string * V)) (key : string) :
  contains d key = false <-> ~ In key (map fst d).
Proof.
  rewrite <- contains_In. destruct (contains d key); split; congruence.
Qed.

Lemma dict_get_absent (d : pydict) (key : string) :
  ~ In key (keys d) -> dict_get d key = None.
Proof.
  induction d as [|[k v] d IH]; simpl; intros Hnot; [reflexivity|].
  destruct (String.eqb_spec k key) as [->|Hne].
  - exfalso. apply Hnot. now left.
  - apply IH. intros Hin. apply Hnot. now right.
Qed.

Lemma dict_get_present (d : pydict) (key : string) :
  In key (keys d) -> exists v, dict_get d key = Some v.
Proof.
  induction d as [|[k v] d IH]; simpl; intros Hin; [contradiction|].
  destruct (String.eqb_spec k key) as [->|Hne].
  - now exists v.
  - destruct Hin as [Heq|Hin]; [congruence | now apply IH].
Qed.

Lemma dict_get_Some_In (d : pydict) (key : string) (v : json) :
  dict_get d key = Some v -> In key (keys d).
Proof.
  induction d as [|[k w] d IH]; simpl; [discriminate|].
  destruct (String.eqb_spec k key) as [->|Hne]; intros H.
  - now left.
  - right. now apply IH.
Qed.

Lemma dict_get_app_fresh (pre suf : pydict) (key : string) :
  ~ In key (keys pre) -> dict_get (pre ++ suf) key = dict_get suf key.
Proof.
  induction pre as [|[k v] pre IH]; simpl; intros Hnot; [reflexivity|].
  destruct (String.eqb_spec k key) as [->|Hne].
  - exfalso. apply Hnot. now left.
  - apply IH. intros Hin. apply Hnot. now right.
Qed.

Lemma dict_set_fresh (d : pydict) (key : string) (v : json) :
  ~ In key (keys d) -> dict_set d key v = d ++ [(key, v)].
Proof.
  induction d as [|[k w] d IH]; simpl; intros Hnot; [reflexivity|].
  destruct (String.eqb_spec k key) as [->|Hne].
  - exfalso. apply Hnot. now left.
  - f_equal. apply IH. intros Hin. apply Hnot. now right.
Qed.

(** Assigning to a key that is there leaves the keys and their order. *)
Lemma dict_set_keys (d : pydict) (key : string) (v : json) :
  In key (keys d) -> keys (dict_set d key v) = keys d.
Proof.
  induction d as [|[k w] d IH]; simpl; intros Hin; [contradiction|].
  destruct (String.eqb_spec k key) as [->|Hne]; simpl.
  - reflexivity.
  - f_equal. destruct Hin as [Heq|Hin]; [congruence | now apply IH].
Qed.

Lemma dict_get_set (d : pydict) (key key' : string) (v : json) :
  dict_get (dict_set d key v) key'
  = if String.eqb key key' then Some v else dict_get d key'.
Proof.
  induction d as [|[k w] d IH]; simpl.
  - reflexivity.
  - destruct (String.eqb_spec k key) as [->|Hne]; simpl.
    + destruct (String.eqb key key'); reflexivity.
    + rewrite IH. destruct (String.eqb_spec k key') as [->|Hne'].
      * apply String.eqb_neq in Hne. rewrite String.eqb_sym in Hne.
        now rewrite Hne.
      * reflexivity.
Qed.

(** ** The constructor-argument filter *)

Lemma keys_filter_incl (f : string * json -> bool) (d : pydict) (key : string) :
  In key (keys (filter f d)) -> In key (keys d).
Proof.
  unfold keys. rewrite !in_map_iff.
  intros [kv [Heq Hin]]. apply filter_In in Hin. exists kv. tauto.
Qed.

(** The loop, started after the items [done] with what it kept of them. *)
Lemma init_args_loop_filter (class_ : pyclass) (todo done : pydict) :
  NoDup (keys (done ++ todo)) ->
  init_args_loop (init_parameters class_) (JObject (done ++ todo))
    (map JString (keys todo)) (filter (accepted class_) done)
  = Ok (filter (accepted class_) (done ++ todo)).
Proof.
  revert done. induction todo as [|[k v] todo IH]; intros done Hnodup.
  - simpl. now rewrite app_nil_r.
  - assert (Hfresh : ~ In k (keys done)).
    { unfold keys in *. rewrite map_app in Hnodup. simpl in Hnodup.
      apply NoDup_remove_2 in Hnodup. intros Hin. apply Hnodup.
      apply in_or_app. now left. }
    replace (done ++ (k, v) :: todo) with ((done ++ [(k, v)]) ++ todo) in *
      by (rewrite <- app_assoc; reflexivity).
    specialize (IH (done ++ [(k, v)]) Hnodup).
    assert (Hstep : filter (accepted class_) (done ++ [(k, v)])
                    = filter (accepted class_) done
                      ++ (if mem k (init_parameters class_) then [(k, v)] else [])).
    { rewrite filter_app. simpl. unfold accepted at 2. simpl.
      now destruct (mem k (init_parameters class_)). }
    rewrite Hstep in IH.
    change (map JString (keys ((k, v) :: todo)))
      with (JString k :: map JString (keys todo)).
    cbn [init_args_loop].
    destruct (mem k (init_parameters class_)) eqn:Hmem.
    + unfold getitem. rewrite <- app_assoc.
      rewrite (dict_get_app_fresh done _ k Hfresh). simpl.
      rewrite String.eqb_refl. simpl.
      rewrite dict_set_fresh
        by (intros Hin; apply Hfresh; eapply keys_filter_incl; eassumption).
      rewrite <- app_assoc in IH. exact IH.
    + rewrite app_nil_r in IH. exact IH.
Qed.

Lemma get_init_args_filtered (class_ : pyclass) (dict_ : pydict) :
  NoDup (keys dict_) ->
  _get_init_args class_ (JObject dict_) = Ok (filter (accepted class_) dict_).
Proof.
  intros Hnodup. unfold _get_init_args. simpl.
  exact (init_args_loop_filter class_ dict_ [] Hnodup).
Qed.

Lemma accepted_items (class_ : pyclass) (dict_ : pydict) (key : string) (v : json) :
  In (key, v) (filter (accepted class_) dict_) <->
  In (key, v) dict_ /\ In key (init_parameters class_).
Proof.
  rewrite filter_In. unfold accepted. cbn [fst]. now rewrite mem_In.
Qed.

Lemma accepted_keys (class_ : pyclass) (dict_ : pydict) (key : string) :
  In key (keys (filter (accepted class_) dict_)) ->
  In key (init_parameters class_).
Proof.
  unfold keys. rewrite in_map_iff. intros [[k v] [Heq Hin]].
  simpl in Heq. subst k. now apply accepted_items in Hin.
Qed.

(** The names that [inspect.signature] lists are the receiver's and those
    of the constructor parameters. *)
Lemma init_parameters_receiver (class_ : pyclass) (key : string) :
  In key (init_parameters class_) <->
  In key (receiver (signature_of class_)) \/
  In key (constructor_parameters class_).
Proof.
  unfold init_parameters, constructor_parameters, receiver.
  induction (signature_of class_) as [|f sig IH]; simpl; [tauto|].
  destruct (is_positional f); simpl.
  - tauto.
  - rewrite IH. tauto.
Qed.

(** C4, as stated, fails: [self] is no constructor parameter of [Owner],
    whose only one is [name]; yet the filter keeps the key [self] of a
    mapping, with its value. *)
Lemma get_init_args_keeps_receiver :
  constructor_parameters Owner = ["name"] /\
  ~ In "self" (constructor_parameters Owner) /\
  _get_init_args Owner (JObject [("self", JInt 1); ("name", JInt 2)])
  = Ok [("self", JInt 1); ("name", JInt 2)] /\
  In "self" (keys [("self", JInt 1); ("name", JInt 2)]).
Proof.
  split; [reflexivity|]. split; [|split; [reflexivity | now left]].
  simpl. intuition discriminate.
Qed.

(** C4, amended: on a dictionary, [_get_init_args] raises nothing and
    returns the items whose key is a name listed by
    [inspect.signature(class_.__init__).parameters], in their order; every
    key it returns is such a name, and an item is returned exactly when it
    is in the input under such a name.  The names listed are those of the
    constructor parameters and the receiver's: a key equal to the
    receiver's name is kept as well. *)
Theorem get_init_args_is_filter (class_ : pyclass) (dict_ : pydict) :
  NoDup (keys dict_) ->
  exists init_args,
    _get_init_args class_ (JObject dict_) = Ok init_args /\
    init_args = filter (accepted class_) dict_ /\
    (forall key, In key (keys init_args) -> In key (init_parameters class_)) /\
    (forall key v,
       In (key, v) init_args <->
       In (key, v) dict_ /\ In key (init_parameters class_)) /\
    (forall key,
       In key (init_parameters class_) <->
       In key (receiver (signature_of class_)) \/
       In key (constructor_parameters class_)).
Proof.
  intros Hnodup. exists (filter (accepted class_) dict_).
  split; [|split; [reflexivity|split; [|split]]].
  - now apply get_init_args_filtered.
  - intros key Hin. eapply accepted_keys. eassumption.
  - intros key v. apply accepted_items.
  - intros key. apply init_parameters_receiver.
Qed.

Lemma get_init_args_is_filter_witness :
  exists init_args,
    _get_init_args Account
      (JObject [("self", JInt 0); ("id", JInt 1); ("extra", JInt 2)])
    = Ok init_args /\
    init_args = [("self", JInt 0); ("id", JInt 1)].
Proof.
  destruct (get_init_args_is_filter Account
              [("self", JInt 0); ("id", JInt 1); ("extra", JInt 2)])
    as [init_args [Hrun [Heq _]]].
  - repeat constructor; simpl; intuition discriminate.
  - exists init_args. split; [exact Hrun | exact Heq].
Defined.
(** ** Calling a class: properties *)

Lemma bind_Ok {A B : Type} (r : result A) (k : A -> result B) (b : B) :
  bind r k = Ok b -> exists a, r = Ok a /\ k a = Ok b.
Proof. destruct r as [a|e]; simpl; intros H; [eauto | discriminate]. Qed.

Lemma bind_keywords_raises (sig : signature) (taken : list string)
    (kwargs bound extra : pydict) (e : exception) :
  bind_keywords sig taken bound extra kwargs = Raise e ->
  exists why, e = TypeError why.
Proof.
  revert bound extra. induction kwargs as [|[k v] kwargs IH]; simpl;
    intros bound extra H; [discriminate|].
  destruct (mem k (fnames (filter takes_keyword sig))).
  - destruct (mem k taken || contains bound k).
    + injection H as <-. eauto.
    + eapply IH. eassumption.
  - destruct (has_kind VarKeyword sig); [eapply IH; eassumption|].
    destruct (mem k (fnames (filter (of_kind PositionalOnly) sig)));
      injection H as <-; eauto.
Qed.

(** A call raises nothing but [TypeError]. *)
Lemma call_raises (class_ : pyclass) (args : list json) (kwargs : pydict)
    (e : exception) :
  call class_ args kwargs = Raise e -> exists why, e = TypeError why.
Proof.
  unfold call. intros H.
  assert (Hbody : forall binding : result (pydict * pydict),
    (forall e', binding = Raise e' -> exists why, e' = TypeError why) ->
    forall (test : bool) (finish : pydict * pydict -> result pyvalue),
      (forall b e', finish b = Raise e' -> exists why, e' = TypeError why) ->
      (b <- binding ;; if test then Raise (TypeError TooManyPositional)
                       else finish b) = Raise e ->
      exists why, e = TypeError why).
  { intros binding Hbinding test finish Hfinish Hrun.
    destruct binding as [b|e']; simpl in Hrun.
    - destruct test; [injection Hrun as <-; eauto | eapply Hfinish; eassumption].
    - injection Hrun as <-. now apply Hbinding. }
  destruct class_; [injection H as <-; eauto| | |];
    (eapply Hbody; [| |exact H];
     [intros e'; apply bind_keywords_raises
     |intros b e' Hfin; cbv beta zeta in Hfin;
      repeat match type of Hfin with
             | match ?l with _ => _ end = _ => destruct l
             end;
      try discriminate; injection Hfin as <-; eauto]).
Qed.

Lemma combine_no_args (l : list string) : combine l (@nil json) = [].
Proof. destruct l; reflexivity. Qed.

Lemma skipn_no_args (n : nat) : skipn n (@nil json) = [].
Proof. destruct n; reflexivity. Qed.

(** A call with keyword arguments only. *)
Lemma call_keywords (class_ : pyclass) (kwargs : pydict) :
  class_ <> PyNone ->
  call class_ [] kwargs
  = (binding <- bind_keywords (signature_of class_)
                  (receiver (signature_of class_)) [] [] kwargs ;;
     if Nat.ltb (List.length (fnames (filter is_positional (signature_of class_)))) 1
        && negb (has_kind VarPositional (signature_of class_))
     then Raise (TypeError TooManyPositional)
     else match missing is_positional (drop_receiver (signature_of class_))
                  (fst binding) with
          | (_ :: _) as required =>
              Raise (TypeError (MissingRequired required))
          | [] =>
              match missing (of_kind KeywordOnly) (signature_of class_)
                      (fst binding) with
              | (_ :: _) as required =>
                  Raise (TypeError (MissingRequired required))
              | [] =>
                  Ok (Instance class_
                        (fst binding
                         ++ starred VarKeyword (signature_of class_)
                              (JObject (snd binding))
                              (Nat.eqb (List.length (snd binding)) 0)))
              end
          end).
Proof.
  intros Hclass.
  assert (Hstar : forall sig, starred VarPositional sig (JArray []) true = []).
  { intros sig. unfold starred. now destruct (filter _ sig). }
  destruct class_; [congruence| | |]; unfold call;
    rewrite combine_no_args, skipn_no_args; cbn [List.length Nat.eqb];
    rewrite Hstar; reflexivity.
Qed.

(** What becomes of the keywords when binding succeeds. *)
Lemma bind_keywords_Ok_inv (sig : signature) (taken : list string)
    (kwargs bound extra bound' extra' : pydict) :
  bind_keywords sig taken bound extra kwargs = Ok (bound', extra') ->
  exists named others,
    bound' = bound ++ named /\ extra' = extra ++ others /\
    (forall item, In item kwargs <-> In item named \/ In item others) /\
    (forall key, In key (keys named) ->
       mem key (fnames (filter takes_keyword sig)) = true /\
       mem key taken = false) /\
    (others <> [] -> has_kind VarKeyword sig = true).
Proof.
  revert bound extra. induction kwargs as [|[k v] kwargs IH]; simpl;
    intros bound extra H.
  - injection H as <- <-. exists [], []. rewrite !app_nil_r.
    repeat split; simpl; try tauto; try contradiction; try congruence.
  - destruct (mem k (fnames (filter takes_keyword sig))) eqn:Hk.
    + destruct (mem k taken) eqn:Ht; [discriminate|]. simpl in H.
      destruct (contains bound k); [discriminate|].
      destruct (IH _ _ H) as [named [others [-> [-> [Hitems [Hkeys Hvar]]]]]].
      exists ((k, v) :: named), others. rewrite <- app_assoc.
      split; [reflexivity|]. split; [reflexivity|]. split; [|split].
      * intros item. rewrite Hitems. simpl. tauto.
      * intros key [<-|Hin]; [now split | now apply Hkeys].
      * exact Hvar.
    + destruct (has_kind VarKeyword sig) eqn:Hvar.
      * destruct (IH _ _ H) as [named [others [-> [-> [Hitems [Hkeys _]]]]]].
        exists named, ((k, v) :: others). rewrite <- app_assoc.
        split; [reflexivity|]. split; [reflexivity|]. split; [|split].
        -- intros item. rewrite Hitems. simpl. tauto.
        -- exact Hkeys.
        -- reflexivity.
      * destruct (mem k (fnames (filter (of_kind PositionalOnly) sig)));
          discriminate.
Qed.

(** Keywords that all name a parameter open to them. *)
Lemma bind_keywords_Ok (sig : signature) (taken : list string)
    (kwargs bound extra : pydict) :
  NoDup (keys (bound ++ kwargs)) ->
  (forall key, In key (keys kwargs) ->
     mem key (fnames (filter takes_keyword sig)) = true /\
     mem key taken = false) ->
  bind_keywords sig taken bound extra kwargs = Ok (bound ++ kwargs, extra).
Proof.
  revert bound. induction kwargs as [|[k v] kwargs IH]; simpl;
    intros bound Hnodup Hkeys.
  - now rewrite app_nil_r.
  - destruct (Hkeys k (or_introl eq_refl)) as [Hk Ht]. rewrite Hk, Ht. simpl.
    assert (Hfresh : ~ In k (keys bound)).
    { unfold keys in *. rewrite map_app in Hnodup. simpl in Hnodup.
      apply NoDup_remove_2 in Hnodup. intros Hb. apply Hnodup.
      apply in_or_app. now left. }
    apply contains_false in Hfresh. rewrite Hfresh.
    rewrite IH.
    + now rewrite <- app_assoc.
    + now rewrite <- app_assoc.
    + intros key Hkey. apply Hkeys. now right.
Qed.

Lemma missing_nil (select : formal -> bool) (sig : signature) (bound : pydict) :
  missing select sig bound = [] <->
  (forall f, In f sig -> select f = true -> fdefault f = false ->
             In (fname f) (keys bound)).
Proof.
  unfold missing, fnames. split.
  - intros Hnone f Hin Hsel Hreq.
    destruct (contains bound (fname f)) eqn:Hc; [now apply contains_In in Hc|].
    exfalso. apply map_eq_nil in Hnone.
    assert (Hf : In f (filter (fun f => select f && unfilled bound f) sig)).
    { apply filter_In. split; [assumption|].
      unfold unfilled. now rewrite Hsel, Hreq, Hc. }
    rewrite Hnone in Hf. contradiction.
  - intros Hall.
    destruct (filter (fun f => select f && unfilled bound f) sig)
      as [|f l] eqn:Hf; [reflexivity|].
    assert (Hin : In f (f :: l)) by now left.
    rewrite <- Hf in Hin. apply filter_In in Hin. destruct Hin as [Hin Hcond].
    unfold unfilled in Hcond.
    apply andb_true_iff in Hcond. destruct Hcond as [Hsel Hcond].
    apply andb_true_iff in Hcond. destruct Hcond as [Hreq Hc].
    apply negb_true_iff in Hreq, Hc.
    apply contains_false in Hc. exfalso. apply Hc. now apply Hall.
Qed.

Lemma keyword_names_spec (sig : signature) (key : string) :
  In key (keyword_names sig) <->
  mem key (fnames (filter takes_keyword sig)) = true /\
  mem key (receiver sig) = false.
Proof.
  unfold keyword_names. rewrite filter_In, negb_true_iff, mem_In. tauto.
Qed.

Lemma required_formals_spec (sig : signature) (f : formal) :
  In f (required_formals sig) <->
  In f (drop_receiver sig) /\
  (is_positional f = true \/ of_kind KeywordOnly f = true) /\
  fdefault f = false.
Proof.
  unfold required_formals. rewrite filter_In, andb_true_iff, orb_true_iff,
    negb_true_iff. tauto.
Qed.

Lemma drop_receiver_incl (sig : signature) (f : formal) :
  In f (drop_receiver sig) -> In f sig.
Proof.
  induction sig as [|g sig IH]; simpl; [tauto|].
  destruct (is_positional g); simpl; intros H; [now right|].
  destruct H as [H|H]; [now left | right; now apply IH].
Qed.

Lemma drop_receiver_keyword_only (sig : signature) (f : formal) :
  of_kind KeywordOnly f = true -> In f sig -> In f (drop_receiver sig).
Proof.
  intros Hkind. induction sig as [|g sig IH]; simpl; [tauto|].
  intros [->|Hin].
  - assert (Hpos : is_positional f = false).
    { unfold of_kind, is_positional in *. destruct (fkind f); try discriminate;
        reflexivity. }
    rewrite Hpos. now left.
  - destruct (is_positional g); [assumption | right; now apply IH].
Qed.

(** Keyword arguments that the signature accepts as they are. *)
Lemma call_keywords_Ok (class_ : pyclass) (kwargs : pydict) :
  class_ <> PyNone ->
  receiver (signature_of class_) <> [] ->
  NoDup (keys kwargs) ->
  (forall key, In key (keys kwargs) ->
               In key (keyword_names (signature_of class_))) ->
  (forall f, In f (required_formals (signature_of class_)) ->
             In (fname f) (keys kwargs)) ->
  call class_ [] kwargs = Ok (Instance class_ kwargs).
Proof.
  intros Hclass Hreceiver Hnodup Hkeys Hrequired.
  rewrite call_keywords by assumption.
  rewrite (bind_keywords_Ok _ _ kwargs [] []);
    [|assumption|intros key Hin; now apply keyword_names_spec, Hkeys].
  cbn [bind fst snd app List.length Nat.eqb].
  assert (Hslots : Nat.ltb
            (List.length (fnames (filter is_positional (signature_of class_)))) 1
            = false).
  { unfold receiver in Hreceiver.
    destruct (fnames (filter is_positional (signature_of class_)));
      [simpl in Hreceiver; congruence | reflexivity]. }
  rewrite Hslots. cbn [andb].
  assert (Hpos : missing is_positional (drop_receiver (signature_of class_))
                   kwargs = []).
  { apply missing_nil. intros f Hin Hsel Hreq. apply Hrequired.
    apply required_formals_spec. tauto. }
  assert (Hkw : missing (of_kind KeywordOnly) (signature_of class_) kwargs = []).
  { apply missing_nil. intros f Hin Hsel Hreq. apply Hrequired.
    apply required_formals_spec.
    split; [now apply drop_receiver_keyword_only | tauto]. }
  rewrite Hpos, Hkw.
  assert (Hstar : forall sig, starred VarKeyword sig (JObject []) true = []).
  { intros sig. unfold starred. now destruct (filter _ sig). }
  now rewrite Hstar, app_nil_r.
Qed.

(** What a call with keyword arguments only has done when it returns. *)
Lemma call_keywords_Ok_inv (class_ : pyclass) (kwargs : pydict) (v : pyvalue) :
  call class_ [] kwargs = Ok v ->
  exists named others,
    v = Instance class_
          (named ++ starred VarKeyword (signature_of class_) (JObject others)
                      (Nat.eqb (List.length others) 0)) /\
    (forall item, In item kwargs <-> In item named \/ In item others) /\
    (forall key, In key (keys named) ->
                 In key (keyword_names (signature_of class_))) /\
    (others <> [] -> has_kind VarKeyword (signature_of class_) = true) /\
    (forall f, In f (required_formals (signature_of class_)) ->
               In (fname f) (keys named)).
Proof.
  intros Hcall.
  assert (Hclass : class_ <> PyNone) by (intros ->; discriminate).
  rewrite call_keywords in Hcall by assumption.
  apply bind_Ok in Hcall. destruct Hcall as [[bound extra] [Hbind Hcall]].
  apply bind_keywords_Ok_inv in Hbind.
  destruct Hbind as [named [others [Hb [Hx [Hitems [Hkeys Hvar]]]]]].
  simpl in Hb, Hx. subst bound extra. cbn [fst snd] in Hcall.
  destruct (_ && _); [discriminate|].
  destruct (missing is_positional _ named) eqn:Hpos; [|discriminate].
  destruct (missing (of_kind KeywordOnly) _ named) eqn:Hkw; [|discriminate].
  injection Hcall as <-. exists named, others.
  split; [reflexivity|]. split; [exact Hitems|]. split; [|split].
  - intros key Hin. now apply keyword_names_spec, Hkeys.
  - exact Hvar.
  - intros f Hf. apply required_formals_spec in Hf.
    destruct Hf as [Hin [[Hsel|Hsel] Hreq]].
    + exact (proj1 (missing_nil _ _ _) Hpos f Hin Hsel Hreq).
    + apply drop_receiver_incl in Hin.
      exact (proj1 (missing_nil _ _ _) Hkw f Hin Hsel Hreq).
Qed.

(** *** Conventional signatures *)

Lemma conventional_positional (init : list parameter) :
  filter is_positional (conventional init) = conventional init.
Proof.
  unfold conventional. simpl. f_equal.
  induction init as [|p init IH]; simpl; [reflexivity | now rewrite IH].
Qed.

Lemma conventional_takes_keyword (init : list parameter) :
  filter takes_keyword (conventional init) = conventional init.
Proof.
  unfold conventional. simpl. f_equal.
  induction init as [|p init IH]; simpl; [reflexivity | now rewrite IH].
Qed.

Lemma conventional_no_kind (k : kind) (init : list parameter) :
  k <> PositionalOrKeyword ->
  filter (of_kind k) (conventional init) = [].
Proof.
  intros Hk. unfold conventional.
  assert (Hno : forall f, fkind f = PositionalOrKeyword -> of_kind k f = false).
  { intros f Hf. unfold of_kind. rewrite Hf. destruct k; simpl; congruence. }
  simpl. rewrite Hno by reflexivity.
  induction init as [|p init IH]; simpl; [reflexivity|].
  now rewrite Hno by reflexivity.
Qed.

Lemma conventional_has_no_kind (k : kind) (init : list parameter) :
  k <> PositionalOrKeyword -> has_kind k (conventional init) = false.
Proof.
  intros Hk. unfold has_kind.
  destruct (existsb (of_kind k) (conventional init)) eqn:Hex; [|reflexivity].
  apply existsb_exists in Hex. destruct Hex as [f [Hin Hf]].
  assert (Hf' : In f (filter (of_kind k) (conventional init)))
    by (apply filter_In; tauto).
  now rewrite conventional_no_kind in Hf'.
Qed.

Lemma conventional_names (init : list parameter) :
  fnames (conventional init) = "self" :: names init.
Proof.
  unfold conventional, fnames, names. simpl. f_equal. apply map_map.
Qed.

Lemma conventional_receiver (init : list parameter) :
  receiver (conventional init) = ["self"].
Proof.
  unfold receiver. now rewrite conventional_positional, conventional_names.
Qed.

Lemma conventional_drop_receiver (init : list parameter) :
  drop_receiver (conventional init) = map formal_of init.
Proof. reflexivity. Qed.





Lemma has_kind_filter (k : kind) (sig : signature) :
  has_kind k sig = true -> exists f rest, filter (of_kind k) sig = f :: rest.
Proof.
  unfold has_kind. intros H. apply existsb_exists in H.
  destruct H as [f [Hin Hf]].
  destruct (filter (of_kind k) sig) as [|g rest] eqn:Hfilter; [|eauto].
  assert (Hf' : In f (filter (of_kind k) sig)) by (apply filter_In; tauto).
  rewrite Hfilter in Hf'. contradiction.
Qed.

(** Every keyword of a call that returns has reached [__init__]: bound to
    a parameter, or in the dictionary of the [**kwargs] parameter. *)
Lemma call_keywords_all_passed (class_ : pyclass) (kwargs : pydict) (v : pyvalue) :
  call class_ [] kwargs = Ok v ->
  exists arguments,
    v = Instance class_ arguments /\
    forall item, In item kwargs ->
      In item arguments \/
      exists name others, In (name, JObject others) arguments /\ In item others.
Proof.
  intros Hcall. apply call_keywords_Ok_inv in Hcall.
  destruct Hcall as [named [others [-> [Hitems [_ [Hvar _]]]]]].
  eexists. split; [reflexivity|]. intros item Hin.
  apply Hitems in Hin. destruct Hin as [Hin|Hin].
  - left. apply in_or_app. now left.
  - right. assert (Hne : others <> []) by (intros ->; contradiction).
    destruct (has_kind_filter _ _ (Hvar Hne)) as [f [rest Hf]].
    exists (fname f), others. split; [|assumption].
    apply in_or_app. right. unfold starred. rewrite Hf.
    destruct others; [congruence|]. now left.
Qed.

(** ** The form deserializer: properties *)

(** C9: [FormDeserializer.deserialize] builds the class from the mapping
    itself.  Where the keys are distinct, each names a parameter that a
    keyword can fill and every parameter that needs a value has a key, it
    returns the instance that received the whole mapping; whenever it
    returns, every item of the mapping has reached [__init__]; where a
    parameter that needs a value has no key, it raises the [TypeError] of
    the call; and nothing but the signature of [__init__] is consulted:
    two classes with the same signature raise alike and build instances
    from the same arguments, whatever their sub-objects. *)
Theorem form_deserialize_calls_class (raw : pydict) (class_ : pyclass) :
  (class_ <> PyNone ->
   receiver (signature_of class_) <> [] ->
   NoDup (keys raw) ->
   (forall key, In key (keys raw) ->
                In key (keyword_names (signature_of class_))) ->
   (forall f, In f (required_formals (signature_of class_)) ->
              In (fname f) (keys raw)) ->
   FormDeserializer_deserialize raw class_ = Ok (Instance class_ raw)) /\
  (forall v, FormDeserializer_deserialize raw class_ = Ok v ->
     exists arguments,
       v = Instance class_ arguments /\
       forall item, In item raw ->
         In item arguments \/
         exists name others,
           In (name, JObject others) arguments /\ In item others) /\
  (forall f, In f (required_formals (signature_of class_)) ->
             ~ In (fname f) (keys raw) ->
             exists why,
               FormDeserializer_deserialize raw class_ = Raise (TypeError why)) /\
  (forall class',
     class_ <> PyNone -> class' <> PyNone ->
     signature_of class' = signature_of class_ ->
     (forall e, FormDeserializer_deserialize raw class_ = Raise e <->
                FormDeserializer_deserialize raw class' = Raise e) /\
     (forall arguments,
        FormDeserializer_deserialize raw class_ = Ok (Instance class_ arguments) <->
        FormDeserializer_deserialize raw class' = Ok (Instance class' arguments))).
Proof.
  unfold FormDeserializer_deserialize. split; [|split; [|split]].
  - intros Hclass Hreceiver Hnodup Hkeys Hrequired. now apply call_keywords_Ok.
  - intros v Hv. now apply call_keywords_all_passed.
  - intros f Hf Habsent.
    destruct (call class_ [] raw) as [v|e] eqn:Hcall.
    + exfalso. apply call_keywords_Ok_inv in Hcall.
      destruct Hcall as [named [others [_ [Hitems [_ [_ Hrequired]]]]]].
      apply Habsent. specialize (Hrequired f Hf).
      unfold keys in *. apply in_map_iff in Hrequired.
      destruct Hrequired as [item [Hname Hin]].
      apply in_map_iff. exists item. split; [assumption|].
      apply Hitems. now left.
    + apply call_raises in Hcall. destruct Hcall as [why ->]. eauto.
  - intros class' Hclass Hclass' Hsig.
    rewrite (call_keywords class_ raw Hclass), (call_keywords class' raw Hclass').
    rewrite Hsig.
    destruct (bind_keywords (signature_of class_) (receiver (signature_of class_))
                [] [] raw) as [binding|e']; cbn [bind];
      [|split; intros; split; intros H; (exact H || discriminate)].
    destruct (_ && _); [split; intros; split; intros H; (exact H || discriminate)|].
    destruct (missing is_positional _ _);
      [|split; intros; split; intros H; (exact H || discriminate)].
    destruct (missing (of_kind KeywordOnly) _ _);
      [|split; intros; split; intros H; (exact H || discriminate)].
    split; [intros; split; discriminate|].
    intros arguments. split; intros H; injection H as <-; reflexivity.
Qed.

Lemma form_deserialize_calls_class_witness :
  FormDeserializer_deserialize [("id", JInt 1); ("note", JString "n")] Account
  = Ok (Instance Account [("id", JInt 1); ("note", JString "n")]) /\
  (exists why,
     FormDeserializer_deserialize [("note", JString "n")] Account
     = Raise (TypeError why)).
Proof.
  split.
  - apply (proj1 (form_deserialize_calls_class
                    [("id", JInt 1); ("note", JString "n")] Account)).
    + discriminate.
    + discriminate.
    + repeat constructor; simpl; intuition discriminate.
    + intros key [<-|[<-|[]]]; vm_compute; auto.
    + intros f [<-|[]]. now left.
  - apply (proj1 (proj2 (proj2 (form_deserialize_calls_class
                                  [("note", JString "n")] Account)))
             (formal_of (required "id"))).
    + now left.
    + simpl. intuition discriminate.
Defined.
(** ** Sub-object resolution keeps a mapping raw *)

Lemma getitem_Ok (x : json) (key : string) (v : json) :
  getitem x key = Ok v ->
  exists d, x = JObject d /\ dict_get d key = Some v.
Proof.
  destruct x; simpl; try discriminate.
  destruct (dict_get fields key) eqn:Hget; [|discriminate].
  intros H. injection H as <-. eauto.
Qed.

Lemma setitem_same_keys (d : pydict) (key : string) (v w r : json) :
  dict_get d key = Some w ->
  setitem (JObject d) key v = Ok r ->
  exists d', r = JObject d' /\ keys d' = keys d.
Proof.
  intros Hget H. simpl in H. injection H as <-.
  eexists. split; [reflexivity|].
  apply dict_set_keys. eapply dict_get_Some_In. eassumption.
Qed.

Lemma inside_same_keys (path : list string) (body : json -> result json) :
  (forall x r, body x = Ok r -> same_keys x r) ->
  forall x r, inside path x body = Ok r -> same_keys x r.
Proof.
  intros Hbody. induction path as [|key path IH]; simpl; intros x r H.
  - now apply Hbody.
  - apply bind_Ok in H. destruct H as [inner [Hget H]].
    apply bind_Ok in H. destruct H as [inner' [_ Hset]].
    apply getitem_Ok in Hget. destruct Hget as [d [-> Hget]].
    intros d0 Heq. injection Heq as <-.
    eapply setitem_same_keys; eassumption.
Qed.

Lemma foldM_app {A S : Type} (step : S -> A -> result S) (l l' : list A) (s : S) :
  foldM step (l ++ l') s = (s' <- foldM step l s ;; foldM step l' s').
Proof.
  revert s. induction l as [|x l IH]; simpl; intros s; [reflexivity|].
  destruct (step s x); simpl; [apply IH | reflexivity].
Qed.

Section KeysKept.

Variable base : pyclass.

Lemma deserialize_sub_object_same_keys (depth : nat) (namespace : string)
    (class_ : nested pyclass) (x r : json) :
  _deserialize_sub_object base depth namespace class_ x = Ok r ->
  same_keys x r.
Proof.
  destruct depth as [|depth]; simpl; [discriminate|].
  apply inside_same_keys. clear x r. intros x r H.
  apply bind_Ok in H. destruct H as [v [Hv Hset]].
  assert (Hget : exists w, getitem x (last (split_dot namespace) "") = Ok w).
  { destruct class_ as [c|cs].
    - apply bind_Ok in Hv. destruct Hv as [w [Hw _]]. eauto.
    - apply bind_Ok in Hv. destruct Hv as [c [_ Hv]].
      apply bind_Ok in Hv. destruct Hv as [w [Hw _]]. eauto. }
  destruct Hget as [w Hget]. apply getitem_Ok in Hget.
  destruct Hget as [d [-> Hget]].
  intros d0 Heq. injection Heq as <-.
  eapply setitem_same_keys; eassumption.
Qed.

Lemma same_keys_trans (x y z : json) :
  same_keys x y -> same_keys y z -> same_keys x z.
Proof.
  intros Hxy Hyz d Hx. destruct (Hxy d Hx) as [d' [Hy Hk]].
  destruct (Hyz d' Hy) as [d'' [Hz Hk']]. exists d''. split; congruence.
Qed.

Lemma foldM_same_keys (depth : nat) (sub_objects : schema) (x r : json) :
  foldM (fun dict_ entry =>
           _deserialize_sub_object base depth (fst entry) (snd entry) dict_)
        sub_objects x = Ok r ->
  same_keys x r.
Proof.
  revert x. induction sub_objects as [|entry sub_objects IH]; simpl; intros x H.
  - injection H as <-. intros d ->. eauto.
  - apply bind_Ok in H. destruct H as [y [Hstep Hrest]].
    eapply same_keys_trans.
    + eapply deserialize_sub_object_same_keys. eassumption.
    + now apply IH.
Qed.

Lemma deserialize_dict_same_keys (depth : nat) (class_ : pyclass) (x r : json) :
  _deserialize_dict base depth class_ x = Ok r -> same_keys x r.
Proof.
  destruct depth as [|depth]; simpl; [discriminate|]. intros H.
  apply bind_Ok in H. destruct H as [sub_objects [_ H]].
  eapply foldM_same_keys. eassumption.
Qed.

Lemma mapM_Forall2 {A B : Type} (f : A -> result B) (l : list A) (l' : list B) :
  mapM f l = Ok l' -> Forall2 (fun a b => f a = Ok b) l l'.
Proof.
  revert l'. induction l as [|a l IH]; simpl; intros l' H.
  - injection H as <-. constructor.
  - apply bind_Ok in H. destruct H as [b [Hb H]].
    apply bind_Ok in H. destruct H as [bs [Hbs H]].
    injection H as <-. constructor; [assumption | now apply IH].
Qed.

(** A class without sub-objects: [_deserialize_dict] returns its argument,
    and so does the list comprehension of [_deserialize_array]. *)
Lemma mapM_no_sub_objects (depth : nat) (name : string)
    (init : signature) (items : list json) :
  mapM (_deserialize_dict base (S depth) (ObjectClass name init [])) items
  = Ok items.
Proof.
  induction items as [|el items IH]; simpl; [reflexivity|].
  simpl in IH. now rewrite IH.
Qed.

End KeysKept.

Lemma deserialize_sub_object_S (base : pyclass) (depth : nat)
    (namespace : string) (class_ : nested pyclass) (x : json) :
  _deserialize_sub_object base (S depth) namespace class_ x
  = inside (removelast (split_dot namespace)) x (fun dict_ =>
      v <- match class_ with
           | Marker classes =>
               elements_class <- first_class classes ;;
               array <- getitem dict_ (last (split_dot namespace) "") ;;
               _deserialize_array base depth elements_class array
           | Single class_ =>
               sub_dict <- getitem dict_ (last (split_dot namespace) "") ;;
               _deserialize_dict base depth class_ sub_dict
           end ;;
      setitem dict_ (last (split_dot namespace) "") v).
Proof. reflexivity. Qed.

Lemma split_dot_not_nil (s : string) : split_dot s <> [].
Proof.
  destruct s as [|c s]; simpl; [discriminate|].
  destruct (Ascii.eqb c "."); [discriminate|].
  destruct (split_dot s); discriminate.
Qed.

Lemma split_dot_last (s : string) :
  split_dot s = removelast (split_dot s) ++ [last (split_dot s) ""].
Proof. apply app_removelast_last, split_dot_not_nil. Qed.

Lemma lookup_path_app (path path' : list string) (x : json) :
  lookup_path (path ++ path') x
  = match lookup_path path x with
    | Some y => lookup_path path' y
    | None => None
    end.
Proof.
  revert x. induction path as [|key path IH]; simpl; intros x; [reflexivity|].
  destruct x; try reflexivity.
  destruct (dict_get fields key); [apply IH | reflexivity].
Qed.

Lemma getitem_lookup (x : json) (key : string) :
  getitem x key = match lookup_path [key] x with
                  | Some v => Ok v
                  | None => match x with
                            | JObject _ => Raise (KeyError key)
                            | _ => Raise (TypeError BadSubscript)
                            end
                  end.
Proof.
  destruct x; simpl; try reflexivity.
  destruct (dict_get fields key); reflexivity.
Qed.

Lemma lookup_path_last (path : list string) (key : string) (x v : json) :
  lookup_path (path ++ [key]) x = Some v <->
  exists y, lookup_path path x = Some y /\ getitem y key = Ok v.
Proof.
  rewrite lookup_path_app. split.
  - destruct (lookup_path path x) as [y|]; [|discriminate].
    intros H. exists y. split; [reflexivity|].
    rewrite getitem_lookup. now rewrite H.
  - intros [y [-> Hget]]. rewrite getitem_lookup in Hget.
    destruct (lookup_path [key] y); [now injection Hget as -> |].
    destruct y; discriminate.
Qed.

Lemma dict_set_same (d : pydict) (key : string) (v : json) :
  dict_get d key = Some v -> dict_set d key v = d.
Proof.
  induction d as [|[k w] d IH]; simpl; [discriminate|].
  destruct (String.eqb_spec k key) as [->|Hne]; intros H.
  - now injection H as ->.
  - now rewrite IH.
Qed.











(** The elements of an array keep the keys their class does not accept,
    while the outermost mapping is filtered for the call. *)
Example nested_extra_key_kept :
  _deserialize_dict PyNone 4 Account
    (JObject [("id", JInt 1); ("x", JInt 9);
              ("meta", JObject [("owner", JObject [("extra", JInt 1)])]);
              ("tags", JArray [JObject [("name", JString "t"); ("z", JNull)]])])
  = Ok (JObject [("id", JInt 1); ("x", JInt 9);
                 ("meta", JObject [("owner", JObject [("extra", JInt 1)])]);
                 ("tags", JArray [JObject [("name", JString "t"); ("z", JNull)]])]) /\
  deserialize_json_data PyNone 4 Account
    (JObject [("id", JInt 1); ("x", JInt 9);
              ("meta", JObject [("owner", JObject [("extra", JInt 1)])]);
              ("tags", JArray [JObject [("name", JString "t"); ("z", JNull)]])])
  = Ok (Instance Account [("id", JInt 1)]).
Proof. split; reflexivity. Qed.

(** ** The receiver among the inspected parameters *)

Lemma NoDup_keys_filter (f : string * json -> bool) (d : pydict) :
  NoDup (keys d) -> NoDup (keys (filter f d)).
Proof.
  induction d as [|[k v] d IH]; simpl; intros H; [constructor|].
  inversion H as [|? ? Hnot Hrest]; subst.
  destruct (f (k, v)); simpl.
  - constructor; [|now apply IH].
    intros Hin. apply Hnot. eapply keys_filter_incl. eassumption.
  - now apply IH.
Qed.

(** A keyword that names the receiver, where the receiver can be given by
    keyword: binding raises, at that keyword if not before. *)
Lemma bind_keywords_receiver (sig : signature) (taken : list string)
    (self : string) (kwargs bound extra : pydict) :
  mem self (fnames (filter takes_keyword sig)) = true ->
  mem self taken = true ->
  In self (keys kwargs) ->
  exists why,
    bind_keywords sig taken bound extra kwargs = Raise (TypeError why).
Proof.
  intros Hkeyword Htaken. revert bound extra.
  induction kwargs as [|[k v] kwargs IH]; intros bound extra Hin;
    [contradiction|].
  cbn [bind_keywords].
  destruct (String.eqb_spec k self) as [->|Hne].
  - rewrite Hkeyword, Htaken. simpl. eauto.
  - assert (Hrest : In self (keys kwargs)).
    { destruct Hin as [Heq|Hin]; [simpl in Heq; congruence | assumption]. }
    destruct (mem k (fnames (filter takes_keyword sig))).
    + destruct (mem k taken || contains bound k); [eauto|].
      now apply IH.
    + destruct (has_kind VarKeyword sig); [now apply IH|].
      destruct (mem k (fnames (filter (of_kind PositionalOnly) sig))); eauto.
Qed.

(** With a conventional [__init__] and distinct keywords that all name an
    inspected parameter, binding stops at [self], which has the instance
    for its value. *)
Lemma bind_keywords_self (init : list parameter) (kwargs bound extra : pydict) :
  NoDup (keys (bound ++ kwargs)) ->
  ~ In "self" (keys bound) ->
  (forall key, In key (keys kwargs) -> In key ("self" :: names init)) ->
  In "self" (keys kwargs) ->
  bind_keywords (conventional init) ["self"] bound extra kwargs
  = Raise (TypeError (MultipleValues "self")).
Proof.
  revert bound. induction kwargs as [|[k v] kwargs IH];
    intros bound Hnodup Hnew Hparams Hself; [contradiction|].
  cbn [bind_keywords].
  rewrite conventional_takes_keyword, conventional_names.
  destruct (String.eqb_spec k "self") as [->|Hne]; [reflexivity|].
  assert (Hmem : mem k ("self" :: names init) = true).
  { apply mem_In. apply Hparams. now left. }
  rewrite Hmem.
  assert (Hfresh : ~ In k (keys bound)).
  { unfold keys in *. rewrite map_app in Hnodup. simpl in Hnodup.
    apply NoDup_remove_2 in Hnodup. intros Hin. apply Hnodup.
    apply in_or_app. now left. }
  apply contains_false in Hfresh. rewrite Hfresh.
  assert (Htaken : mem k ["self"] = false).
  { simpl. now destruct (String.eqb_spec k "self"). }
  rewrite Htaken. simpl. apply IH.
  - now rewrite <- app_assoc.
  - unfold keys. rewrite map_app, in_app_iff. simpl.
    intros [Hin|[Heq|[]]]; [now apply Hnew | congruence].
  - intros key Hin. apply Hparams. now right.
  - destruct Hself as [Heq|Hin]; [simpl in Heq; congruence | assumption].
Qed.

(** C10, as stated, fails: the receiver of [Renamed.__init__] is named
    [this], so [self] is not among the inspected parameters; the key [self]
    of the document is dropped by the filter and [deserialize] returns an
    instance. *)
Lemma self_key_dropped_for_renamed_receiver :
  is_plain_object Renamed = true /\
  init_parameters Renamed = ["this"; "name"] /\
  ~ In "self" (init_parameters Renamed) /\
  loads_sample ("{" ++ quoted "self" ++ ": 1, " ++ quoted "name" ++ ": 2}")
  = Some (JObject [("self", JInt 1); ("name", JInt 2)]) /\
  _get_init_args Renamed (JObject [("self", JInt 1); ("name", JInt 2)])
  = Ok [("name", JInt 2)] /\
  deserialize loads_sample PyNone 1 Renamed
    ("{" ++ quoted "self" ++ ": 1, " ++ quoted "name" ++ ": 2}")
  = Ok (Instance Renamed [("name", JInt 2)]).
Proof.
  split; [reflexivity|]. split; [reflexivity|].
  split; [|repeat split; reflexivity].
  simpl. intuition discriminate.
Qed.

(** C10, amended: the inspected parameters are those of the signature of
    [__init__], the receiver under its own name among them.  When the
    decoded mapping of a plain object class has a key [self] and its
    sub-objects resolve, the filter keeps that key exactly when the
    signature has a parameter of that name.  For a class whose [__init__]
    names its receiver [self] and takes it by position or keyword, the key
    is kept, the class is called with it and [deserialize] raises the
    [TypeError] of that call: the one of the argument [self] having
    several values when the signature is a conventional one. *)
Theorem self_key_reaches_constructor
    (json_loads : string -> option json) (base : pyclass) (depth : nat)
    (name : string) (sig : signature) (sub_objects : schema)
    (text : string) (d : pydict) (dict_ : json) :
  json_loads text = Some (JObject d) ->
  NoDup (keys d) ->
  In "self" (keys d) ->
  _deserialize_dict base depth (ObjectClass name sig sub_objects)
    (JObject d) = Ok dict_ ->
  (exists init_args,
     _get_init_args (ObjectClass name sig sub_objects) dict_ = Ok init_args /\
     (In "self" (keys init_args) <-> In "self" (fnames sig)) /\
     deserialize json_loads base depth (ObjectClass name sig sub_objects) text
     = call (ObjectClass name sig sub_objects) [] init_args) /\
  (forall default rest,
     sig = Formal "self" PositionalOrKeyword default :: rest ->
     In "self" (init_parameters (ObjectClass name sig sub_objects)) /\
     exists why,
       deserialize json_loads base depth (ObjectClass name sig sub_objects) text
       = Raise (TypeError why)) /\
  (forall init,
     sig = conventional init ->
     deserialize json_loads base depth (ObjectClass name sig sub_objects) text
     = Raise (TypeError (MultipleValues "self"))).
Proof.
  intros Hparse Hnodup Hself Hresolve.
  set (class_ := ObjectClass name sig sub_objects) in *.
  destruct (deserialize_dict_same_keys base depth class_ _ _ Hresolve d eq_refl)
    as [d' [-> Hkeys]].
  rewrite <- Hkeys in Hnodup, Hself.
  pose proof (get_init_args_filtered class_ d' Hnodup) as Hargs.
  set (init_args := filter (accepted class_) d') in *.
  assert (Hkept : In "self" (keys init_args) <-> In "self" (fnames sig)).
  { split.
    - intros Hin. exact (accepted_keys class_ d' "self" Hin).
    - intros Hin. unfold keys in Hself. apply in_map_iff in Hself.
      destruct Hself as [[k v] [Hk Hd]]. simpl in Hk. subst k.
      unfold keys. apply in_map_iff. exists ("self", v).
      split; [reflexivity|]. apply accepted_items. now split. }
  assert (Hrun : deserialize json_loads base depth class_ text
                 = call class_ [] init_args).
  { unfold deserialize. rewrite Hparse.
    unfold deserialize_json_data. fold class_. rewrite Hresolve. simpl.
    rewrite Hargs. reflexivity. }
  split; [exists init_args; auto|]. split.
  - intros default rest Hsig.
    assert (Hin : In "self" (fnames sig)) by (rewrite Hsig; now left).
    split; [exact Hin|].
    rewrite Hrun, call_keywords by discriminate.
    destruct (bind_keywords_receiver (signature_of class_)
                (receiver (signature_of class_)) "self" init_args [] [])
      as [why Hbind].
    + simpl. rewrite Hsig. reflexivity.
    + simpl. rewrite Hsig. reflexivity.
    + now apply Hkept.
    + rewrite Hbind. simpl. eauto.
  - intros init Hsig.
    assert (Hin : In "self" (fnames sig)) by (rewrite Hsig; now left).
    rewrite Hrun, call_keywords by discriminate.
    change (signature_of class_) with sig. rewrite Hsig.
    rewrite conventional_receiver.
    rewrite (bind_keywords_self init init_args [] []); [reflexivity| | | |].
    + simpl. now apply NoDup_keys_filter.
    + intros [].
    + intros key Hkey. rewrite <- conventional_names, <- Hsig.
      exact (accepted_keys class_ d' key Hkey).
    + now apply Hkept.
Qed.

Lemma self_key_reaches_constructor_witness :
  deserialize loads_account PyNone 3 Account account_self_text
  = Raise (TypeError (MultipleValues "self")).
Proof.
  refine (proj2 (proj2
    (self_key_reaches_constructor loads_account PyNone 3
       "Account" (conventional [required "id"; optional "note"])
       [("meta.owner", Single Owner); ("tags", Marker [Owner])]
       account_self_text account_self_document
       (JObject account_self_document) _ _ _ _))
    [required "id"; optional "note"] eq_refl).
  - reflexivity.
  - repeat constructor; simpl; intuition discriminate.
  - now left.
  - reflexivity.
Defined.
(** ** Paths that do not resolve *)

Lemma bind_Raise {A B : Type} (r : result A) (k : A -> result B) (e : exception) :
  r = Raise e -> bind r k = Raise e.
Proof. now intros ->. Qed.

Lemma getitem_not_mapping (x : json) (key : string) :
  reaches_mapping [] x = false -> getitem x key = Raise (TypeError BadSubscript).
Proof. destruct x; simpl; intros H; (reflexivity || discriminate). Qed.

Lemma inside_unreachable (raised : exception -> Prop)
    (body : json -> result json) (path : list string) :
  (forall y, reaches_mapping [] y = false ->
             exists e, body y = Raise e /\ raised e) ->
  forall x, reaches_mapping path x = false ->
  exists e, inside path x body = Raise e /\ (raised e \/ path_error path e).
Proof.
  intros Hbody. induction path as [|key path IH]; intros x Hx.
  - destruct (Hbody x Hx) as [e [He Hraised]]. exists e. simpl. tauto.
  - destruct x; simpl in Hx |- *;
      try (eexists; split; [reflexivity | right; now right]).
    destruct (dict_get fields key) as [v|] eqn:Hget.
    + destruct (IH v Hx) as [e [He Hkind]]. exists e. simpl. rewrite He.
      split; [reflexivity|].
      destruct Hkind as [Hr|[[k [Hin Hk]]|Ht]].
      * now left.
      * right. left. exists k. split; [now right | assumption].
      * right. now right.
    + eexists. split; [reflexivity|]. right. left. exists key.
      split; [now left | reflexivity].
Qed.

Lemma keeps_unreachable_refl (x : json) : keeps_unreachable x x.
Proof. intros path H. exact H. Qed.

Lemma keeps_unreachable_trans (x y z : json) :
  keeps_unreachable x y -> keeps_unreachable y z -> keeps_unreachable x z.
Proof. intros Hxy Hyz path H. apply Hyz, Hxy, H. Qed.

Lemma keeps_unreachable_array (x : json) (items : list json) :
  keeps_unreachable x (JArray items).
Proof. intros path _. destruct path; reflexivity. Qed.

(** Replacing the value under a key by one that resolves no more paths. *)
Lemma keeps_unreachable_set (d : pydict) (key : string) (w w' : json) :
  dict_get d key = Some w ->
  keeps_unreachable w w' ->
  keeps_unreachable (JObject d) (JObject (dict_set d key w')).
Proof.
  intros Hget Hkeeps path H. destruct path as [|k path]; simpl in *.
  - discriminate.
  - rewrite dict_get_set. destruct (String.eqb_spec key k) as [<-|Hne].
    + rewrite Hget in H. now apply Hkeeps.
    + exact H.
Qed.

Lemma inside_keeps_unreachable (path : list string) (body : json -> result json) :
  (forall x r, body x = Ok r -> keeps_unreachable x r) ->
  forall x r, inside path x body = Ok r -> keeps_unreachable x r.
Proof.
  intros Hbody. induction path as [|key path IH]; simpl; intros x r H.
  - now apply Hbody.
  - apply bind_Ok in H. destruct H as [inner [Hget H]].
    apply bind_Ok in H. destruct H as [inner' [Hin Hset]].
    apply getitem_Ok in Hget. destruct Hget as [d [-> Hget]].
    simpl in Hset. injection Hset as <-.
    eapply keeps_unreachable_set; [eassumption|].
    eapply IH. eassumption.
Qed.

Section Unreachable.

Variable base : pyclass.

Lemma foldM_keeps_unreachable (depth : nat) (sub_objects : schema) :
  sub_object_keeps base depth ->
  forall x r,
    foldM (fun dict_ entry =>
             _deserialize_sub_object base depth (fst entry) (snd entry) dict_)
          sub_objects x = Ok r ->
    keeps_unreachable x r.
Proof.
  intros Hsub. induction sub_objects as [|entry sub_objects IH]; simpl;
    intros x r H.
  - injection H as <-. apply keeps_unreachable_refl.
  - apply bind_Ok in H. destruct H as [y [Hstep Hrest]].
    eapply keeps_unreachable_trans; [eapply Hsub | eapply IH]; eassumption.
Qed.

Lemma all_keep_unreachable (depth : nat) :
  dict_keeps base depth /\ sub_object_keeps base depth /\ array_keeps base depth.
Proof.
  induction depth as [|depth [IHdict [IHsub IHarray]]].
  - repeat split; intros ? ; intros; simpl in *; discriminate.
  - split; [|split].
    + intros class_ x r H. simpl in H.
      apply bind_Ok in H. destruct H as [sub_objects [_ H]].
      eapply foldM_keeps_unreachable; eassumption.
    + intros namespace class_ x r H. simpl in H.
      revert x r H. apply inside_keeps_unreachable. intros x r H.
      apply bind_Ok in H. destruct H as [v [Hv Hset]].
      destruct class_ as [c|cs].
      * apply bind_Ok in Hv. destruct Hv as [w [Hget Hv]].
        apply getitem_Ok in Hget. destruct Hget as [d [-> Hget]].
        simpl in Hset. injection Hset as <-.
        eapply keeps_unreachable_set; [eassumption|].
        eapply IHdict. eassumption.
      * apply bind_Ok in Hv. destruct Hv as [c [_ Hv]].
        apply bind_Ok in Hv. destruct Hv as [w [Hget Hv]].
        apply getitem_Ok in Hget. destruct Hget as [d [-> Hget]].
        simpl in Hset. injection Hset as <-.
        eapply keeps_unreachable_set; [eassumption|].
        eapply IHarray. eassumption.
    + intros class_ x r H. simpl in H. destruct class_.
      * discriminate.
      * injection H as <-. apply keeps_unreachable_refl.
      * apply bind_Ok in H. destruct H as [items [_ H]].
        apply bind_Ok in H. destruct H as [elements [_ H]].
        injection H as <-. apply keeps_unreachable_array.
      * eapply IHarray. eassumption.
Qed.

(** One path: the exception comes from the subscripts along the path. *)
Lemma deserialize_sub_object_unreachable (depth : nat) (namespace : string)
    (class_ : nested pyclass) (x : json) :
  reaches_mapping (removelast (split_dot namespace)) x = false ->
  exists e,
    _deserialize_sub_object base depth namespace class_ x = Raise e /\
    (depth <> O -> class_ <> Marker [] ->
     path_error (removelast (split_dot namespace)) e).
Proof.
  intros Hx. destruct depth as [|depth].
  - eexists. split; [reflexivity | congruence].
  - rewrite deserialize_sub_object_S.
    destruct class_ as [c|[|c cs]].
    + match goal with
      | |- exists e, inside ?path x ?body = Raise e /\ _ =>
          destruct (inside_unreachable (fun e => e = TypeError BadSubscript) body path)
            with (x := x) as [e [He Hkind]]; [|exact Hx|]
      end.
      * intros y Hy. exists (TypeError BadSubscript). split; [|reflexivity].
        cbn beta.
        now rewrite (getitem_not_mapping y (last (split_dot namespace) "") Hy).
      * exists e. split; [exact He|]. intros _ _.
        destruct Hkind as [->|Hkind]; [now right | assumption].
    + match goal with
      | |- exists e, inside ?path x ?body = Raise e /\ _ =>
          destruct (inside_unreachable (fun e => e = IndexError) body path)
            with (x := x) as [e [He Hkind]]; [|exact Hx|]
      end.
      * intros y Hy. exists IndexError. split; reflexivity.
      * exists e. split; [exact He | congruence].
    + match goal with
      | |- exists e, inside ?path x ?body = Raise e /\ _ =>
          destruct (inside_unreachable (fun e => e = TypeError BadSubscript) body path)
            with (x := x) as [e [He Hkind]]; [|exact Hx|]
      end.
      * intros y Hy. exists (TypeError BadSubscript). split; [|reflexivity].
        cbn beta. cbn [first_class bind].
        now rewrite (getitem_not_mapping y (last (split_dot namespace) "") Hy).
      * exists e. split; [exact He|]. intros _ _.
        destruct Hkind as [->|Hkind]; [now right | assumption].
Qed.

Lemma foldM_unreachable (depth : nat) (sub_objects : schema)
    (namespace : string) (class_ : nested pyclass) :
  In (namespace, class_) sub_objects ->
  forall x,
    reaches_mapping (removelast (split_dot namespace)) x = false ->
    exists e,
      foldM (fun dict_ entry =>
               _deserialize_sub_object base depth (fst entry) (snd entry) dict_)
            sub_objects x = Raise e.
Proof.
  induction sub_objects as [|entry sub_objects IH]; simpl; intros Hin x Hx;
    [contradiction|].
  destruct (_deserialize_sub_object base depth (fst entry) (snd entry) x)
    as [y|e] eqn:Hstep; simpl; [|eauto].
  destruct Hin as [->|Hin].
  - destruct (deserialize_sub_object_unreachable depth namespace class_ x Hx)
      as [e [He _]].
    simpl in Hstep. congruence.
  - apply IH; [assumption|].
    destruct (all_keep_unreachable depth) as [_ [Hsub _]].
    eapply Hsub; eassumption.
Qed.

End Unreachable.

(** The subscript that raises, told from the document: a segment absent
    from the mapping reached so far gives [KeyError] with that segment. *)
Lemma inside_absent (body : json -> result json) (pre post : list string)
    (key : string) (x : json) (d : pydict) :
  lookup_path pre x = Some (JObject d) ->
  dict_get d key = None ->
  inside (pre ++ key :: post) x body = Raise (KeyError key).
Proof.
  revert x. induction pre as [|k pre IH]; simpl; intros x Hpre Hget.
  - injection Hpre as ->. simpl. now rewrite Hget.
  - destruct x; try discriminate.
    destruct (dict_get fields k) as [w|] eqn:Hk; [|discriminate].
    simpl. rewrite Hk. simpl. now rewrite (IH w Hpre Hget).
Qed.

(** A value that is no mapping, reached before the last segment, gives the
    [TypeError] of the subscript applied to it. *)
Lemma inside_not_mapping (body : json -> result json) (pre post : list string)
    (x v : json) :
  (forall y, reaches_mapping [] y = false ->
             body y = Raise (TypeError BadSubscript)) ->
  lookup_path pre x = Some v ->
  reaches_mapping [] v = false ->
  inside (pre ++ post) x body = Raise (TypeError BadSubscript).
Proof.
  intros Hbody. revert x. induction pre as [|k pre IH]; simpl; intros x Hpre Hv.
  - injection Hpre as ->. destruct post as [|k post]; simpl.
    + now apply Hbody.
    + now rewrite (getitem_not_mapping v k Hv).
  - destruct x; try discriminate.
    destruct (dict_get fields k) as [w|] eqn:Hk; [|discriminate].
    simpl. rewrite Hk. simpl. now rewrite (IH w Hpre Hv).
Qed.

(** A path that does not lead through mappings stops in one of these two
    ways. *)
Lemma unreachable_cases (path : list string) (x : json) :
  reaches_mapping path x = false ->
  (exists pre key post d,
     path = pre ++ key :: post /\
     lookup_path pre x = Some (JObject d) /\ dict_get d key = None) \/
  (exists pre post v,
     path = pre ++ post /\
     lookup_path pre x = Some v /\ reaches_mapping [] v = false).
Proof.
  revert x. induction path as [|k path IH]; intros x Hx.
  - right. exists [], [], x. repeat split. exact Hx.
  - destruct x; try (right; exists [], (k :: path); eexists;
                     repeat split; reflexivity).
    simpl in Hx. destruct (dict_get fields k) as [w|] eqn:Hk.
    + destruct (IH w Hx) as [[pre [key [post [d [-> [Hpre Hget]]]]]]
                            |[pre [post [v [-> [Hpre Hv]]]]]].
      * left. exists (k :: pre), key, post, d. simpl. rewrite Hk. auto.
      * right. exists (k :: pre), post, v. simpl. rewrite Hk. auto.
    + left. exists [], k, path, fields. auto.
Qed.

(** The body of [_deserialize_sub_object] starts with a subscript, which a
    value that is no mapping does not take. *)
Lemma deserialize_sub_object_not_mapping (base : pyclass) (depth : nat)
    (namespace : string) (class_ : nested pyclass) (pre post : list string)
    (x v : json) :
  class_ <> Marker [] ->
  removelast (split_dot namespace) = pre ++ post ->
  lookup_path pre x = Some v ->
  reaches_mapping [] v = false ->
  _deserialize_sub_object base (S depth) namespace class_ x
  = Raise (TypeError BadSubscript).
Proof.
  intros Hmarker Hpath Hpre Hv.
  rewrite deserialize_sub_object_S, Hpath.
  apply inside_not_mapping with (v := v); [|assumption|assumption].
  intros y Hy. destruct class_ as [c|[|c cs]]; [| congruence |].
  - now rewrite (getitem_not_mapping y _ Hy).
  - cbn [first_class bind]. now rewrite (getitem_not_mapping y _ Hy).
Qed.

Lemma deserialize_sub_object_absent (base : pyclass) (depth : nat)
    (namespace : string) (class_ : nested pyclass) (pre post : list string)
    (key : string) (x : json) (d : pydict) :
  removelast (split_dot namespace) = pre ++ key :: post ->
  lookup_path pre x = Some (JObject d) ->
  dict_get d key = None ->
  _deserialize_sub_object base (S depth) namespace class_ x
  = Raise (KeyError key).
Proof.
  intros Hpath Hpre Hget.
  rewrite deserialize_sub_object_S, Hpath.
  now apply inside_absent with (d := d).
Qed.

(** C3, as stated, fails: the path [meta.owner] is declared and [meta]
    holds a number; the exception raised is the [TypeError] of a subscript,
    which carries neither the path nor a segment of it. *)
Lemma unresolved_path_error_names_no_path :
  In ("meta.owner", Single Owner)
     [("meta.owner", Single Owner); ("tags", Marker [Owner])] /\
  reaches_mapping ["meta"] (JObject [("id", JInt 7); ("meta", JInt 5)]) = false /\
  deserialize loads_sample PyNone 3 Account
    ("{" ++ quoted "id" ++ ": 7, " ++ quoted "meta" ++ ": 5}")
  = Raise (TypeError BadSubscript) /\
  (forall key, TypeError BadSubscript <> KeyError key).
Proof.
  split; [now left|]. repeat split. discriminate.
Qed.

(** C3, amended: a declared path whose segments before the last do not
    lead through mappings of the decoded document makes [deserialize]
    raise, and no value is returned.  When the paths declared before it
    resolve, the exception is told from the document they leave: where a
    segment before the last is absent from the mapping that the segments
    before it reach, it is [KeyError] with that segment, not the path;
    where the segments reach a value that is no mapping, it is the
    [TypeError] of a subscript, which carries no path; and one of the two
    is the case. *)
Theorem unresolved_path_fails
    (json_loads : string -> option json) (base : pyclass) (depth : nat)
    (name : string) (init : signature) (sub_objects : schema)
    (namespace : string) (class_ : nested pyclass)
    (text : string) (json_data : json) :
  json_loads text = Some json_data ->
  In (namespace, class_) sub_objects ->
  class_ <> Marker [] ->
  reaches_mapping (removelast (split_dot namespace)) json_data = false ->
  (exists e,
     deserialize json_loads base depth
       (ObjectClass name init sub_objects) text = Raise e) /\
  (forall before after dict_,
     sub_objects = before ++ (namespace, class_) :: after ->
     resolve_all base (S depth) before json_data = Ok dict_ ->
     (forall pre key post d,
        removelast (split_dot namespace) = pre ++ key :: post ->
        lookup_path pre dict_ = Some (JObject d) ->
        dict_get d key = None ->
        deserialize json_loads base (S (S depth))
          (ObjectClass name init sub_objects) text = Raise (KeyError key)) /\
     (forall pre post v,
        removelast (split_dot namespace) = pre ++ post ->
        lookup_path pre dict_ = Some v ->
        reaches_mapping [] v = false ->
        deserialize json_loads base (S (S depth))
          (ObjectClass name init sub_objects) text
        = Raise (TypeError BadSubscript)) /\
     ((exists pre key post d,
         removelast (split_dot namespace) = pre ++ key :: post /\
         lookup_path pre dict_ = Some (JObject d) /\ dict_get d key = None) \/
      (exists pre post v,
         removelast (split_dot namespace) = pre ++ post /\
         lookup_path pre dict_ = Some v /\ reaches_mapping [] v = false))).
Proof.
  intros Hparse Hin Hmarker Hpath. split.
  - unfold deserialize. rewrite Hparse. unfold deserialize_json_data.
    destruct depth as [|depth]; simpl; [eauto|].
    destruct (foldM_unreachable base depth sub_objects namespace class_ Hin
                json_data Hpath) as [e He].
    rewrite He. simpl. eauto.
  - intros before after dict_ -> Hbefore.
    assert (Hdict : reaches_mapping (removelast (split_dot namespace)) dict_
                    = false).
    { destruct (all_keep_unreachable base (S depth)) as [_ [Hsub _]].
      eapply foldM_keeps_unreachable; eassumption. }
    assert (Hrun : forall e,
               _deserialize_sub_object base (S depth) namespace class_ dict_
               = Raise e ->
               deserialize json_loads base (S (S depth))
                 (ObjectClass name init (before ++ (namespace, class_) :: after))
                 text = Raise e).
    { intros e He.
      unfold deserialize. rewrite Hparse. unfold deserialize_json_data.
      change (_deserialize_dict base (S (S depth))
                (ObjectClass name init (before ++ (namespace, class_) :: after))
                json_data)
        with (resolve_all base (S depth) (before ++ (namespace, class_) :: after)
                json_data).
      unfold resolve_all in *. rewrite foldM_app, Hbefore.
      cbn [bind foldM fst snd]. rewrite He. reflexivity. }
    split; [|split].
    + intros pre key post d Hsplit Hpre Hget. apply Hrun.
      eapply deserialize_sub_object_absent; eassumption.
    + intros pre post v Hsplit Hpre Hv. apply Hrun.
      eapply deserialize_sub_object_not_mapping; eassumption.
    + now apply unreachable_cases.
Qed.

Lemma unresolved_path_fails_witness :
  deserialize loads_sample PyNone 3 Account
    ("{" ++ quoted "id" ++ ": 7, " ++ quoted "meta" ++ ": 5}")
  = Raise (TypeError BadSubscript) /\
  deserialize loads_sample PyNone 3 Account ("{" ++ quoted "a" ++ ": 1}")
  = Raise (KeyError "meta").
Proof.
  split.
  - refine (proj1 (proj2 (proj2
      (unresolved_path_fails loads_sample PyNone 1 "Account"
         (conventional [required "id"; optional "note"])
         [("meta.owner", Single Owner); ("tags", Marker [Owner])]
         "meta.owner" (Single Owner)
         ("{" ++ quoted "id" ++ ": 7, " ++ quoted "meta" ++ ": 5}")
         (JObject [("id", JInt 7); ("meta", JInt 5)]) _ _ _ _)
      [] [("tags", Marker [Owner])]
      (JObject [("id", JInt 7); ("meta", JInt 5)]) eq_refl eq_refl))
      ["meta"] [] (JInt 5) eq_refl eq_refl eq_refl).
    + reflexivity.
    + now left.
    + discriminate.
    + reflexivity.
  - refine (proj1 (proj2
      (unresolved_path_fails loads_sample PyNone 1 "Account"
         (conventional [required "id"; optional "note"])
         [("meta.owner", Single Owner); ("tags", Marker [Owner])]
         "meta.owner" (Single Owner)
         ("{" ++ quoted "a" ++ ": 1}")
         (JObject [("a", JInt 1)]) _ _ _ _)
      [] [("tags", Marker [Owner])]
      (JObject [("a", JInt 1)]) eq_refl eq_refl)
      [] "meta" [] [("a", JInt 1)] eq_refl eq_refl eq_refl).
    + reflexivity.
    + now left.
    + discriminate.
    + reflexivity.
Defined.
(** ** Collections *)

(** C1: where the elements class is itself a collection class,
    [_deserialize_array] goes on with the [elements_class] of the base
    class [SdkCollectionObject], not with the one the elements class
    declares.  [Accounts] declares [Account], which fails on the sample
    array for want of the key [meta]; [Texts] declares [Text], which
    returns the array as it is; the code treats both alike. *)
Theorem nested_collection_uses_base_elements_class (base : pyclass) (depth : nat) :
  (forall name init sub_objects elements_class array,
     _deserialize_array base (S depth)
       (SdkCollectionClass name init sub_objects elements_class) array
     = _deserialize_array base depth base array) /\
  _deserialize_array base (3 + depth) Account (JArray [JObject [("id", JInt 1)]])
  = Raise (KeyError "meta") /\
  _deserialize_array base (3 + depth) Text (JArray [JObject [("id", JInt 1)]])
  = Ok (JArray [JObject [("id", JInt 1)]]) /\
  _deserialize_array base (4 + depth) Accounts (JArray [JObject [("id", JInt 1)]])
  = _deserialize_array base (4 + depth) Texts (JArray [JObject [("id", JInt 1)]]).
Proof.
  repeat split; reflexivity.
Qed.

(** With [None] for the [elements_class] of the base class, a collection
    of collections cannot be deserialized at all. *)
Example nested_collection_base_none :
  deserialize_json_data PyNone 5 AccountPages
    (JArray [JArray [JObject [("id", JInt 1)]]])
  = Raise (TypeError NotAClass).
Proof. reflexivity. Qed.

(** What is iterated over and is no array gives strings: the keys of a
    mapping, the characters of a string. *)
Lemma chars_strings (s : string) :
  Forall (fun item => exists w, item = JString w) (chars s).
Proof.
  induction s as [|c s IH]; simpl; [constructor|].
  destruct (continues s).
  - destruct (chars s) as [|x rest]; [constructor; eauto|].
    inversion IH as [|? ? [w ->] Hrest]; subst.
    constructor; eauto.
  - constructor; eauto.
Qed.

Lemma iterate_non_sequence (x : json) (items : list json) :
  is_sequence x = false ->
  iterate x = Ok items ->
  Forall (fun item => exists w, item = JString w) items.
Proof.
  destruct x; simpl; intros Hseq H; try discriminate; injection H as <-.
  - apply chars_strings.
  - apply Forall_forall. intros item Hin. apply in_map_iff in Hin.
    destruct Hin as [k [<- _]]. eauto.
Qed.

(** The first declared path of a class, met by a value that is no mapping:
    the first subscript raises. *)
Lemma deserialize_dict_not_mapping (base : pyclass) (depth : nat)
    (name : string) (init : signature) (namespace : string)
    (class_ : nested pyclass) (rest : schema) (x : json) :
  class_ <> Marker [] ->
  reaches_mapping [] x = false ->
  _deserialize_dict base (S (S depth))
    (ObjectClass name init ((namespace, class_) :: rest)) x
  = Raise (TypeError BadSubscript).
Proof.
  intros Hmarker Hx. cbn [_deserialize_dict get_sub_objects bind foldM fst snd].
  rewrite (deserialize_sub_object_not_mapping base depth namespace class_
             [] (removelast (split_dot namespace)) x x Hmarker eq_refl
             eq_refl Hx).
  reflexivity.
Qed.

(** C2, as stated, fails: a decoded mapping is no sequence, yet a
    collection of plain objects iterates over its keys and is built from
    them, as it is from the array of those keys; and a collection whose
    elements class is outside both hierarchies is built from [None]. *)
Lemma collection_from_non_sequence :
  is_sequence (JObject [("a", JInt 1)]) = false /\
  is_collection Owners = true /\
  deserialize loads_sample PyNone 2 Owners ("{" ++ quoted "a" ++ ": 1}")
  = Ok (Instance Owners [("elements", JArray [JString "a"])]) /\
  _deserialize_array PyNone 2 Owner (JObject [("a", JInt 1)])
  = _deserialize_array PyNone 2 Owner (JArray [JString "a"]) /\
  deserialize loads_sample PyNone 1 Texts "null"
  = Ok (Instance Texts [("elements", JNull)]).
Proof. repeat split; reflexivity. Qed.

(** C2, amended: [deserialize] checks no shape.  For a collection class
    whose elements class is a plain object class, a decoded [None],
    boolean or number makes it raise the [TypeError] of iterating over it,
    and no value is returned; any other value is iterated over, the items
    of a mapping or of a string being strings, and each item goes through
    [_deserialize_dict] for the elements class before the collection class
    is called with the array of the results.  Where that class has no sub-objects, the items go
    unchanged, in a list, to the call of the collection class; where it
    has some and the first item is no mapping, the first declared path
    raises the [TypeError] of a subscript.  For an elements class outside
    both hierarchies the decoded value goes unchanged to the call of the
    collection class. *)
Theorem collection_from_scalar_fails
    (json_loads : string -> option json) (base : pyclass) (depth : nat)
    (name : string) (init : signature) (sub_objects : schema)
    (elements_class : pyclass) (text : string) (json_data : json) :
  json_loads text = Some json_data ->
  (is_plain_object elements_class = true -> is_scalar json_data = true ->
   deserialize json_loads base (S depth)
     (CollectionClass name init sub_objects elements_class) text
   = Raise (TypeError NotIterable)) /\
  (is_scalar json_data = false -> exists items, iterate json_data = Ok items) /\
  (forall items,
     is_plain_object elements_class = true ->
     iterate json_data = Ok items ->
     (is_sequence json_data = false ->
      Forall (fun item => exists w, item = JString w) items) /\
     deserialize json_loads base (S depth)
       (CollectionClass name init sub_objects elements_class) text
     = (elements <- mapM (_deserialize_dict base depth elements_class) items ;;
        call (CollectionClass name init sub_objects elements_class)
          [JArray elements] [])) /\
  (forall element_name element_init items,
     elements_class = ObjectClass element_name element_init [] ->
     iterate json_data = Ok items ->
     deserialize json_loads base (S (S depth))
       (CollectionClass name init sub_objects elements_class) text
     = call (CollectionClass name init sub_objects elements_class)
         [JArray items] []) /\
  (forall element_name element_init namespace class_ rest item items,
     elements_class
     = ObjectClass element_name element_init ((namespace, class_) :: rest) ->
     class_ <> Marker [] ->
     iterate json_data = Ok (item :: items) ->
     reaches_mapping [] item = false ->
     deserialize json_loads base (S (S (S depth)))
       (CollectionClass name init sub_objects elements_class) text
     = Raise (TypeError BadSubscript)) /\
  (elements_class <> PyNone -> is_collection elements_class = false ->
   is_plain_object elements_class = false ->
   deserialize json_loads base (S depth)
     (CollectionClass name init sub_objects elements_class) text
   = call (CollectionClass name init sub_objects elements_class)
       [json_data] []).
Proof.
  intros Hparse. unfold deserialize. rewrite Hparse.
  split; [|split; [|split; [|split; [|split]]]].
  - intros Hplain Hscalar.
    destruct elements_class; try discriminate.
    destruct json_data; try discriminate; reflexivity.
  - intros Hscalar. destruct json_data; try discriminate; simpl; eauto.
  - intros items Hplain Hitems. split.
    + intros Hseq. eapply iterate_non_sequence; eassumption.
    + destruct elements_class; try discriminate.
      unfold deserialize_json_data. cbn [_deserialize_array].
      rewrite Hitems. cbn [bind].
      now destruct (mapM _ items).
  - intros element_name element_init items -> Hitems.
    unfold deserialize_json_data. cbn [_deserialize_array].
    rewrite Hitems. cbn [bind]. now rewrite mapM_no_sub_objects.
  - intros element_name element_init namespace class_ rest item items
      -> Hmarker Hitems Hitem.
    unfold deserialize_json_data. cbn [_deserialize_array].
    rewrite Hitems. cbn [bind mapM].
    now rewrite (deserialize_dict_not_mapping base depth element_name
                   element_init namespace class_ rest item Hmarker Hitem).
  - intros Hclass Hcoll Hplain.
    destruct elements_class; simpl in *; congruence.
Qed.

Lemma collection_from_scalar_fails_witness :
  deserialize loads_sample PyNone 1 Owners "null"
  = Raise (TypeError NotIterable) /\
  deserialize loads_sample PyNone 3 Accounts ("{" ++ quoted "a" ++ ": 1}")
  = Raise (TypeError BadSubscript).
Proof.
  split.
  - apply (collection_from_scalar_fails loads_sample PyNone 0
             "Owners" (conventional [required "elements"]) [] Owner
             "null" JNull); reflexivity.
  - refine (proj1 (proj2 (proj2 (proj2 (proj2
      (collection_from_scalar_fails loads_sample PyNone 0
         "Accounts" (conventional [required "elements"]) [] Account
         ("{" ++ quoted "a" ++ ": 1}") (JObject [("a", JInt 1)]) eq_refl)))))
      "Account" (conventional [required "id"; optional "note"])
      "meta.owner" (Single Owner) [("tags", Marker [Owner])]
      (JString "a") [] eq_refl _ eq_refl eq_refl).
    discriminate.
Defined.
(** ** The recursion depth

    The three functions raise together or return together once the depth
    suffices: a result that is not [RecursionError] stays the same at any
    greater depth. *)

Lemma bind_settles {A B : Type} (r r' : result A) (k k' : A -> result B)
    (out : result B) :
  bind r k = out -> out <> Raise RecursionError ->
  (r <> Raise RecursionError -> r' = r) ->
  settles k k' ->
  bind r' k' = out.
Proof.
  intros Hout Hsettled Hr Hk. destruct r as [a|e]; simpl in Hout.
  - rewrite Hr by discriminate. simpl. now apply Hk.
  - subst out.
    rewrite Hr by (intros H; apply Hsettled; injection H as ->; reflexivity).
    reflexivity.
Qed.

Lemma mapM_settles {A B : Type} (f g : A -> result B) :
  settles f g -> settles (mapM f) (mapM g).
Proof.
  intros Hfg l. induction l as [|x l IH]; intros r Hr Hsettled.
  - exact Hr.
  - simpl in *. eapply bind_settles; [exact Hr | assumption | |].
    + intros Hx. now apply Hfg.
    + intros y out Hout Hs. eapply bind_settles; [exact Hout | assumption | |].
      * intros Hl. now apply IH.
      * intros ys out' Hout' _. exact Hout'.
Qed.

Lemma foldM_settles {A S : Type} (f g : S -> A -> result S) (l : list A) :
  (forall x, settles (fun s => f s x) (fun s => g s x)) ->
  settles (foldM f l) (foldM g l).
Proof.
  intros Hfg. induction l as [|x l IH]; intros s r Hr Hsettled.
  - exact Hr.
  - simpl in *. eapply bind_settles; [exact Hr | assumption | |].
    + intros Hx. now apply (Hfg x s).
    + exact IH.
Qed.

Lemma inside_settles (path : list string) (body body' : json -> result json) :
  settles body body' ->
  settles (fun x => inside path x body) (fun x => inside path x body').
Proof.
  intros Hbody. induction path as [|key path IH]; intros x r Hr Hsettled.
  - now apply Hbody.
  - simpl in *. eapply bind_settles; [exact Hr | assumption | reflexivity |].
    intros inner out Hout Hs.
    eapply bind_settles; [exact Hout | assumption | |].
    + intros Hinner. now apply IH.
    + intros inner' out' Hout' _. exact Hout'.
Qed.

Section Depth.

Variable base : pyclass.

Lemma one_more_level (depth : nat) :
  (forall class_,
     settles (_deserialize_dict base depth class_)
             (_deserialize_dict base (S depth) class_)) /\
  (forall namespace class_,
     settles (_deserialize_sub_object base depth namespace class_)
             (_deserialize_sub_object base (S depth) namespace class_)) /\
  (forall class_,
     settles (_deserialize_array base depth class_)
             (_deserialize_array base (S depth) class_)).
Proof.
  induction depth as [|depth [IHdict [IHsub IHarray]]].
  - repeat split; intros; intros x r Hr Hsettled; simpl in Hr; congruence.
  - split; [|split].
    + intros class_ x r Hr Hsettled.
      change (_deserialize_dict base (S depth) class_ x)
        with (sub_objects <- get_sub_objects class_ ;;
              resolve_all base depth sub_objects x) in Hr.
      change (_deserialize_dict base (S (S depth)) class_ x)
        with (sub_objects <- get_sub_objects class_ ;;
              resolve_all base (S depth) sub_objects x).
      eapply bind_settles; [exact Hr | assumption | reflexivity |].
      intros sub_objects. unfold resolve_all.
      apply foldM_settles. intros entry. apply IHsub.
    + intros namespace class_ x r Hr Hsettled.
      rewrite deserialize_sub_object_S in Hr |- *.
      revert x r Hr Hsettled. apply inside_settles.
      intros x r Hr Hsettled.
      eapply bind_settles; [exact Hr | assumption | |].
      * intros Hv. destruct class_ as [c|cs].
        -- eapply bind_settles; [reflexivity | assumption | reflexivity |].
           intros w. apply IHdict.
        -- eapply bind_settles; [reflexivity | assumption | reflexivity |].
           intros c out Hout Hs.
           eapply bind_settles; [exact Hout | assumption | reflexivity |].
           intros w. apply IHarray.
      * intros v out Hout _. exact Hout.
    + intros class_ x r Hr Hsettled. destruct class_.
      * exact Hr.
      * exact Hr.
      * change (_deserialize_array base (S depth)
                  (ObjectClass name init sub_objects) x)
          with (items <- iterate x ;;
                elements <- mapM (_deserialize_dict base depth
                                    (ObjectClass name init sub_objects)) items ;;
                Ok (JArray elements)) in Hr.
        change (_deserialize_array base (S (S depth))
                  (ObjectClass name init sub_objects) x)
          with (items <- iterate x ;;
                elements <- mapM (_deserialize_dict base (S depth)
                                    (ObjectClass name init sub_objects)) items ;;
                Ok (JArray elements)).
        eapply bind_settles; [exact Hr | assumption | reflexivity |].
        intros items out Hout Hs.
        eapply bind_settles; [exact Hout | assumption | |].
        -- intros Hmap. eapply mapM_settles; [apply IHdict | reflexivity | exact Hmap].
        -- intros elements out' Hout' _. exact Hout'.
      * change (_deserialize_array base (S depth)
                  (CollectionClass name init sub_objects class_) x)
          with (_deserialize_array base depth base x) in Hr.
        change (_deserialize_array base (S (S depth))
                  (CollectionClass name init sub_objects class_) x)
          with (_deserialize_array base (S depth) base x).
        now apply IHarray.
Qed.

Lemma deeper_levels (depth depth' : nat) :
  depth <= depth' ->
  (forall class_,
     settles (_deserialize_dict base depth class_)
             (_deserialize_dict base depth' class_)) /\
  (forall class_,
     settles (_deserialize_array base depth class_)
             (_deserialize_array base depth' class_)).
Proof.
  induction 1 as [|depth' Hle [IHdict IHarray]].
  - split; intros class_ x r Hr _; exact Hr.
  - destruct (one_more_level depth') as [Hdict [_ Harray]].
    split; intros class_ x r Hr Hsettled.
    + apply Hdict; [|assumption]. now apply IHdict.
    + apply Harray; [|assumption]. now apply IHarray.
Qed.

End Depth.

(** X1: a result of [deserialize] that is not [RecursionError] does not
    depend on the recursion depth left: at any greater depth the same value
    is returned or the same exception raised. *)
Theorem deserialize_same_at_greater_depth
    (json_loads : string -> option json) (base : pyclass)
    (depth depth' : nat) (class_ : pyclass) (text : string)
    (r : result pyvalue) :
  depth <= depth' ->
  deserialize json_loads base depth class_ text = r ->
  r <> Raise RecursionError ->
  deserialize json_loads base depth' class_ text = r.
Proof.
  intros Hle Hr Hsettled.
  destruct (deeper_levels base depth depth' Hle) as [Hdict Harray].
  unfold deserialize in *. destruct (json_loads text) as [json_data|]; [|exact Hr].
  unfold deserialize_json_data in *. destruct class_; try exact Hr.
  - eapply bind_settles; [exact Hr | assumption | |].
    + intros Hd. eapply Hdict; [reflexivity | exact Hd].
    + intros dict_ out Hout _. exact Hout.
  - eapply bind_settles; [exact Hr | assumption | |].
    + intros Ha. eapply Harray; [reflexivity | exact Ha].
    + intros elements out Hout _. exact Hout.
Qed.

Lemma deserialize_same_at_greater_depth_witness :
  deserialize loads_sample PyNone 7 Account
    ("{" ++ quoted "id" ++ ": 7, " ++ quoted "meta" ++ ": 5}")
  = Raise (TypeError BadSubscript).
Proof.
  apply (deserialize_same_at_greater_depth loads_sample PyNone 3 7 Account).
  - lia.
  - reflexivity.
  - discriminate.
Defined.

(** ** A base class whose elements are collections *)

Lemma deserialize_array_collection_loops (base : pyclass) (depth : nat)
    (class_ : pyclass) (array : json) :
  is_collection base = true ->
  is_collection class_ = true ->
  _deserialize_array base depth class_ array = Raise RecursionError.
Proof.
  intros Hbase. revert class_.
  induction depth as [|depth IH]; intros class_ Hclass; [reflexivity|].
  destruct class_; try discriminate. simpl. now apply IH.
Qed.

(** X2: if the [elements_class] of the base class [SdkCollectionObject] is
    itself a collection class, [_deserialize_array] on a collection class
    calls itself with the same arguments for ever: a collection of
    collections is never deserialized, whatever the document and the
    depth allowed, and [deserialize] ends in [RecursionError]. *)
Theorem collection_of_collections_recursion_error
    (json_loads : string -> option json) (base : pyclass) (depth : nat)
    (name : string) (init : list parameter) (sub_objects : schema)
    (elements_class : pyclass) (text : string) (json_data : json) :
  is_collection base = true ->
  is_collection elements_class = true ->
  json_loads text = Some json_data ->
  deserialize json_loads base depth
    (SdkCollectionClass name init sub_objects elements_class) text
  = Raise RecursionError.
Proof.
  intros Hbase Hclass Hparse. unfold deserialize. rewrite Hparse. simpl.
  now rewrite deserialize_array_collection_loops.
Qed.

Lemma collection_of_collections_recursion_error_witness :
  deserialize loads_sample Texts 1000 AccountPages "null" = Raise RecursionError.
Proof.
  apply (collection_of_collections_recursion_error loads_sample Texts 1000
           "AccountPages" [required "elements"] [] Accounts "null" JNull);
    reflexivity.
Defined.

(** ** Declared sub-objects have to be there *)

(** The loop over the segments reaches [y]: what is left is [body] on [y],
    whose exception is that of the whole. *)
Lemma inside_reaches_raise (path : list string) (body : json -> result json)
    (x y : json) (e : exception) :
  lookup_path path x = Some y -> body y = Raise e ->
  inside path x body = Raise e.
Proof.
  revert x. induction path as [|key path IH]; simpl; intros x Hreach Hbody.
  - injection Hreach as ->. exact Hbody.
  - destruct x; try discriminate. simpl.
    destruct (dict_get fields key) as [v|]; [|discriminate]. simpl.
    now rewrite (IH v Hreach Hbody).
Qed.

Lemma inside_missing (raised : exception -> Prop)
    (body : json -> result json) (path : list string) (last_key : string) :
  (forall y, lookup_path [last_key] y = None ->
             exists e, body y = Raise e /\ raised e) ->
  forall x, lookup_path (path ++ [last_key]) x = None ->
  exists e, inside path x body = Raise e /\
            (raised e \/ path_error path e).
Proof.
  intros Hbody. induction path as [|key path IH]; intros x Hx.
  - destruct (Hbody x Hx) as [e [He Hraised]]. exists e. simpl. tauto.
  - destruct x; simpl in Hx |- *;
      try (eexists; split; [reflexivity | right; now right]).
    destruct (dict_get fields key) as [v|] eqn:Hget.
    + destruct (IH v Hx) as [e [He Hkind]]. exists e. simpl. rewrite He.
      split; [reflexivity|].
      destruct Hkind as [Hr|[[k [Hin Hk]]|Ht]].
      * now left.
      * right. left. exists k. split; [now right | assumption].
      * right. now right.
    + eexists. split; [reflexivity|]. right. left. exists key.
      split; [now left | reflexivity].
Qed.

Lemma keeps_missing_refl (x : json) : keeps_missing x x.
Proof. intros path H. exact H. Qed.

Lemma keeps_missing_trans (x y z : json) :
  keeps_missing x y -> keeps_missing y z -> keeps_missing x z.
Proof. intros Hxy Hyz path H. apply Hyz, Hxy, H. Qed.

Lemma keeps_missing_array (x : json) (items : list json) :
  keeps_missing x (JArray items).
Proof. intros path H. destruct path; [discriminate | reflexivity]. Qed.

Lemma keeps_missing_set (d : pydict) (key : string) (w w' : json) :
  dict_get d key = Some w ->
  keeps_missing w w' ->
  keeps_missing (JObject d) (JObject (dict_set d key w')).
Proof.
  intros Hget Hkeeps path H. destruct path as [|k path]; simpl in *.
  - discriminate.
  - rewrite dict_get_set. destruct (String.eqb_spec key k) as [<-|Hne].
    + rewrite Hget in H. now apply Hkeeps.
    + exact H.
Qed.

Lemma inside_keeps_missing (path : list string) (body : json -> result json) :
  (forall x r, body x = Ok r -> keeps_missing x r) ->
  forall x r, inside path x body = Ok r -> keeps_missing x r.
Proof.
  intros Hbody. induction path as [|key path IH]; simpl; intros x r H.
  - now apply Hbody.
  - apply bind_Ok in H. destruct H as [inner [Hget H]].
    apply bind_Ok in H. destruct H as [inner' [Hin Hset]].
    apply getitem_Ok in Hget. destruct Hget as [d [-> Hget]].
    simpl in Hset. injection Hset as <-.
    eapply keeps_missing_set; [eassumption|].
    eapply IH. eassumption.
Qed.

Section Missing.

Variable base : pyclass.

Lemma resolve_all_keeps_missing (depth : nat) (entries : schema) :
  (forall namespace class_ x r,
     _deserialize_sub_object base depth namespace class_ x = Ok r ->
     keeps_missing x r) ->
  forall x r, resolve_all base depth entries x = Ok r -> keeps_missing x r.
Proof.
  intros Hsub. unfold resolve_all.
  induction entries as [|entry entries IH]; simpl; intros x r H.
  - injection H as <-. apply keeps_missing_refl.
  - apply bind_Ok in H. destruct H as [y [Hstep Hrest]].
    eapply keeps_missing_trans; [eapply Hsub | eapply IH]; eassumption.
Qed.

(** No function makes a path resolve that did not resolve before. *)
Lemma all_keep_missing (depth : nat) :
  (forall class_ x r,
     _deserialize_dict base depth class_ x = Ok r -> keeps_missing x r) /\
  (forall namespace class_ x r,
     _deserialize_sub_object base depth namespace class_ x = Ok r ->
     keeps_missing x r) /\
  (forall class_ x r,
     _deserialize_array base depth class_ x = Ok r -> keeps_missing x r).
Proof.
  induction depth as [|depth [IHdict [IHsub IHarray]]].
  - repeat split; intros; simpl in *; discriminate.
  - split; [|split].
    + intros class_ x r H. simpl in H.
      apply bind_Ok in H. destruct H as [sub_objects [_ H]].
      eapply resolve_all_keeps_missing; eassumption.
    + intros namespace class_ x r H. rewrite deserialize_sub_object_S in H.
      revert x r H. apply inside_keeps_missing. intros x r H.
      apply bind_Ok in H. destruct H as [v [Hv Hset]].
      destruct class_ as [c|cs].
      * apply bind_Ok in Hv. destruct Hv as [w [Hget Hv]].
        apply getitem_Ok in Hget. destruct Hget as [d [-> Hget]].
        simpl in Hset. injection Hset as <-.
        eapply keeps_missing_set; [eassumption|].
        eapply IHdict. eassumption.
      * apply bind_Ok in Hv. destruct Hv as [c [_ Hv]].
        apply bind_Ok in Hv. destruct Hv as [w [Hget Hv]].
        apply getitem_Ok in Hget. destruct Hget as [d [-> Hget]].
        simpl in Hset. injection Hset as <-.
        eapply keeps_missing_set; [eassumption|].
        eapply IHarray. eassumption.
    + intros class_ x r H. simpl in H. destruct class_.
      * discriminate.
      * injection H as <-. apply keeps_missing_refl.
      * apply bind_Ok in H. destruct H as [items [_ H]].
        apply bind_Ok in H. destruct H as [elements [_ H]].
        injection H as <-. apply keeps_missing_array.
      * eapply IHarray. eassumption.
Qed.

(** One entry whose path does not resolve. *)
Lemma deserialize_sub_object_missing (depth : nat) (namespace : string)
    (class_ : nested pyclass) (x : json) :
  lookup_path (split_dot namespace) x = None ->
  exists e,
    _deserialize_sub_object base depth namespace class_ x = Raise e /\
    (depth <> O -> class_ <> Marker [] ->
     path_error (split_dot namespace) e).
Proof.
  intros Hx. destruct depth as [|depth].
  - eexists. split; [reflexivity | congruence].
  - rewrite deserialize_sub_object_S. rewrite split_dot_last in Hx.
    assert (Hwiden : forall e,
              path_error (removelast (split_dot namespace)) e ->
              path_error (split_dot namespace) e).
    { intros e [[k [Hin Hk]]|Ht]; [left|now right].
      exists k. split; [|assumption].
      rewrite split_dot_last. apply in_or_app. now left. }
    assert (Hbody : forall y,
              lookup_path [last (split_dot namespace) ""] y = None ->
              exists e,
                getitem y (last (split_dot namespace) "") = Raise e /\
                path_error (split_dot namespace) e).
    { intros y Hy. rewrite getitem_lookup, Hy.
      destruct y; eexists; (split; [reflexivity|]); try (now right).
      left. eexists. split; [|reflexivity].
      rewrite split_dot_last at 2. apply in_or_app. right. now left. }
    destruct class_ as [c|[|c cs]].
    + match goal with
      | |- exists e, inside ?path x ?body = Raise e /\ _ =>
          destruct (inside_missing (path_error (split_dot namespace)) body path
                      (last (split_dot namespace) ""))
            with (x := x) as [e [He Hkind]]; [|exact Hx|]
      end.
      * intros y Hy. destruct (Hbody y Hy) as [e [He Hkind]].
        exists e. split; [|assumption]. cbn beta. now rewrite He.
      * exists e. split; [exact He|]. intros _ _.
        destruct Hkind as [Hkind|Hkind]; [assumption | now apply Hwiden].
    + match goal with
      | |- exists e, inside ?path x ?body = Raise e /\ _ =>
          destruct (inside_missing (fun e => e = IndexError) body path
                      (last (split_dot namespace) ""))
            with (x := x) as [e [He Hkind]]; [|exact Hx|]
      end.
      * intros y Hy. exists IndexError. split; reflexivity.
      * exists e. split; [exact He | congruence].
    + match goal with
      | |- exists e, inside ?path x ?body = Raise e /\ _ =>
          destruct (inside_missing (path_error (split_dot namespace)) body path
                      (last (split_dot namespace) ""))
            with (x := x) as [e [He Hkind]]; [|exact Hx|]
      end.
      * intros y Hy. destruct (Hbody y Hy) as [e [He Hkind]].
        exists e. split; [|assumption]. cbn beta. cbn [first_class bind].
        now rewrite He.
      * exists e. split; [exact He|]. intros _ _.
        destruct Hkind as [Hkind|Hkind]; [assumption | now apply Hwiden].
Qed.

Lemma resolve_all_missing (depth : nat) (entries : schema)
    (namespace : string) (class_ : nested pyclass) :
  In (namespace, class_) entries ->
  forall x,
    lookup_path (split_dot namespace) x = None ->
    exists e, resolve_all base depth entries x = Raise e.
Proof.
  unfold resolve_all.
  induction entries as [|entry entries IH]; simpl; intros Hin x Hx;
    [contradiction|].
  destruct (_deserialize_sub_object base depth (fst entry) (snd entry) x)
    as [y|e] eqn:Hstep; simpl; [|eauto].
  destruct Hin as [->|Hin].
  - destruct (deserialize_sub_object_missing depth namespace class_ x Hx)
      as [e [He _]].
    simpl in Hstep. congruence.
  - apply IH; [assumption|].
    destruct (all_keep_missing depth) as [_ [Hsub _]].
    eapply Hsub; eassumption.
Qed.

End Missing.

(** X3: every declared sub-object is required.  If the path of an entry of
    [sub_objects] does not resolve in the decoded document, its last
    segment included, [deserialize] raises and returns nothing; when the
    entries declared before it resolve, the exception is [KeyError] with
    the absent segment, or the [TypeError] of a subscript on a value that
    is no mapping. *)
Theorem missing_sub_object_fails
    (json_loads : string -> option json) (base : pyclass) (depth : nat)
    (name : string) (init : list parameter) (sub_objects : schema)
    (namespace : string) (class_ : nested pyclass)
    (text : string) (json_data : json) :
  json_loads text = Some json_data ->
  In (namespace, class_) sub_objects ->
  class_ <> Marker [] ->
  lookup_path (split_dot namespace) json_data = None ->
  (exists e,
     deserialize json_loads base depth
       (SdkObjectClass name init sub_objects) text = Raise e) /\
  (forall before after dict_,
     sub_objects = before ++ (namespace, class_) :: after ->
     resolve_all base (S depth) before json_data = Ok dict_ ->
     exists e,
       deserialize json_loads base (S (S depth))
         (SdkObjectClass name init sub_objects) text = Raise e /\
       path_error (split_dot namespace) e).
Proof.
  intros Hparse Hin Hmarker Hpath. split.
  - unfold deserialize. rewrite Hparse. unfold deserialize_json_data.
    destruct depth as [|depth]; [simpl; eauto|].
    change (_deserialize_dict base (S depth)
              (SdkObjectClass name init sub_objects) json_data)
      with (resolve_all base depth sub_objects json_data).
    destruct (resolve_all_missing base depth sub_objects namespace class_ Hin
                json_data Hpath) as [e He].
    rewrite He. simpl. eauto.
  - intros before after dict_ -> Hbefore.
    assert (Hdict : lookup_path (split_dot namespace) dict_ = None).
    { destruct (all_keep_missing base (S depth)) as [_ [Hsub _]].
      eapply resolve_all_keeps_missing; eassumption. }
    destruct (deserialize_sub_object_missing base (S depth) namespace
                class_ dict_ Hdict) as [e [He Hkind]].
    exists e. split; [|apply Hkind; [discriminate | assumption]].
    unfold deserialize. rewrite Hparse. unfold deserialize_json_data.
    change (_deserialize_dict base (S (S depth))
              (SdkObjectClass name init (before ++ (namespace, class_) :: after))
              json_data)
      with (resolve_all base (S depth) (before ++ (namespace, class_) :: after)
              json_data).
    unfold resolve_all in *. rewrite foldM_app, Hbefore.
    cbn [bind foldM fst snd]. rewrite He. reflexivity.
Qed.

Lemma missing_sub_object_fails_witness :
  exists e,
    deserialize loads_sample PyNone 3 Account
      ("{" ++ quoted "a" ++ ": 1}") = Raise e.
Proof.
  apply (missing_sub_object_fails loads_sample PyNone 3 "Account"
           [required "id"; optional "note"]
           [("meta.owner", Single Owner); ("tags", Marker [Owner])]
           "tags" (Marker [Owner])
           ("{" ++ quoted "a" ++ ": 1}")
           (JObject [("a", JInt 1)])).
  - reflexivity.
  - right. now left.
  - discriminate.
  - reflexivity.
Defined.

(** ** Entries that only check presence, and ill-formed entries *)

Lemma inside_unchanged (path : list string) (body : json -> result json) :
  (forall y r, body y = Ok r -> r = y) ->
  forall x r, inside path x body = Ok r -> r = x.
Proof.
  intros Hbody. induction path as [|key path IH]; simpl; intros x r H.
  - now apply Hbody.
  - apply bind_Ok in H. destruct H as [inner [Hget H]].
    apply bind_Ok in H. destruct H as [inner' [Hin Hset]].
    apply IH in Hin. subst inner'.
    apply getitem_Ok in Hget. destruct Hget as [d [-> Hget]].
    simpl in Hset. injection Hset as <-. now rewrite dict_set_same.
Qed.

Lemma setitem_unchanged (y v r : json) (key : string) :
  getitem y key = Ok v -> setitem y key v = Ok r -> r = y.
Proof.
  intros Hget Hset. apply getitem_Ok in Hget. destruct Hget as [d [-> Hget]].
  simpl in Hset. injection Hset as <-. now rewrite dict_set_same.
Qed.

Section PresenceOnly.

Variable base : pyclass.

Lemma resolve_all_unchanged (depth : nat) (entries : schema) :
  (forall entry x r,
     In entry entries ->
     _deserialize_sub_object base depth (fst entry) (snd entry) x = Ok r ->
     r = x) ->
  forall x r, resolve_all base depth entries x = Ok r -> r = x.
Proof.
  unfold resolve_all. induction entries as [|entry entries IH]; simpl;
    intros Hsub x r H.
  - now injection H as <-.
  - apply bind_Ok in H. destruct H as [y [Hstep Hrest]].
    apply Hsub in Hstep; [|now left]. subst y.
    apply IH; [|assumption]. intros entry' x' r' Hin. apply Hsub. now right.
Qed.

Lemma presence_only_unchanged (depth : nat) :
  forall class_ x r,
    presence_only class_ = true ->
    _deserialize_dict base depth class_ x = Ok r -> r = x.
Proof.
  induction depth as [depth IH] using lt_wf_ind.
  intros class_ x r Hclass H.
  destruct depth as [|depth]; [discriminate|].
  change (_deserialize_dict base (S depth) class_ x)
    with (sub_objects <- get_sub_objects class_ ;;
          resolve_all base depth sub_objects x) in H.
  apply bind_Ok in H. destruct H as [sub_objects [Hsubs H]].
  assert (Hentries : forallb presence_entry sub_objects = true).
  { destruct class_; simpl in Hsubs; try discriminate;
      injection Hsubs as <-; exact Hclass. }
  revert H. apply resolve_all_unchanged.
  intros [namespace spec] y r' Hin Hstep. cbn [fst snd] in Hstep.
  rewrite forallb_forall in Hentries. specialize (Hentries _ Hin).
  destruct depth as [|depth']; [discriminate|].
  rewrite deserialize_sub_object_S in Hstep.
  revert y r' Hstep. apply inside_unchanged. intros y r' Hbody.
  apply bind_Ok in Hbody. destruct Hbody as [v [Hv Hset]].
  destruct spec as [c|cs].
  - apply bind_Ok in Hv. destruct Hv as [w [Hget Hv]].
    apply IH in Hv; [|lia|exact Hentries]. subst v.
    eapply setitem_unchanged; eassumption.
  - destruct cs as [|c cs]; [discriminate|].
    destruct c; try discriminate.
    cbn [first_class bind] in Hv.
    apply bind_Ok in Hv. destruct Hv as [w [Hget Hv]].
    destruct depth' as [|depth'']; [discriminate|].
    simpl in Hv. injection Hv as <-.
    eapply setitem_unchanged; eassumption.
Qed.

End PresenceOnly.

(** X4: for a class whose entries, and those of the classes they name,
    are single nested classes or arrays of classes outside the SDK
    hierarchies, sub-object resolution only checks that the paths are
    there: whenever [_deserialize_dict] returns, it returns the document
    it was given. *)
Theorem presence_only_schema_leaves_document
    (base : pyclass) (depth : nat) (class_ : pyclass) (dict_ r : json) :
  presence_only class_ = true ->
  _deserialize_dict base depth class_ dict_ = Ok r ->
  r = dict_.
Proof. apply presence_only_unchanged. Qed.

Lemma presence_only_schema_leaves_document_witness :
  JObject [("id", JInt 1); ("meta", JObject [("owner", JNull)])]
  = JObject [("id", JInt 1); ("meta", JObject [("owner", JNull)])].
Proof.
  apply (presence_only_schema_leaves_document PyNone 3
           (SdkObjectClass "Account" [required "id"]
              [("meta.owner", Single Owner)])
           (JObject [("id", JInt 1); ("meta", JObject [("owner", JNull)])])).
  - reflexivity.
  - reflexivity.
Defined.

(** X5: entries that cannot work.  Where the segments before the last
    resolve, an array marker that is an empty list raises [IndexError]; and
    where the whole path resolves, a single nested class outside the SDK
    hierarchies raises [AttributeError], as it has no [sub_objects], while
    the same class in an array marker leaves the document as it is. *)
Theorem ill_formed_entries
    (base : pyclass) (depth : nat) (namespace : string) (dict_ : json) :
  (forall y,
     lookup_path (removelast (split_dot namespace)) dict_ = Some y ->
     _deserialize_sub_object base (S depth) namespace (Marker []) dict_
     = Raise IndexError) /\
  (forall class_ v,
     is_collection class_ = false -> is_plain_object class_ = false ->
     lookup_path (split_dot namespace) dict_ = Some v ->
     _deserialize_sub_object base (S (S depth)) namespace (Single class_) dict_
     = Raise (AttributeError "sub_objects")) /\
  (forall name init classes v,
     lookup_path (split_dot namespace) dict_ = Some v ->
     _deserialize_sub_object base (S (S depth)) namespace
       (Marker (PyClass name init :: classes)) dict_
     = Ok dict_).
Proof.
  split; [|split].
  - intros y Hreach. rewrite deserialize_sub_object_S.
    eapply inside_reaches_raise; [exact Hreach | reflexivity].
  - intros class_ v Hcoll Hplain Hreach.
    rewrite split_dot_last in Hreach.
    apply lookup_path_last in Hreach. destruct Hreach as [y [Hreach Hget]].
    rewrite deserialize_sub_object_S.
    eapply inside_reaches_raise; [exact Hreach|].
    cbn beta. rewrite Hget.
    destruct class_; try discriminate; reflexivity.
  - intros name init classes v Hreach.
    destruct (_deserialize_sub_object base (S (S depth)) namespace
                (Marker (PyClass name init :: classes)) dict_)
      as [r|e] eqn:Hrun.
    + f_equal. revert Hrun. rewrite deserialize_sub_object_S.
      apply inside_unchanged. intros y r' Hbody.
      cbn [first_class bind] in Hbody.
      apply bind_Ok in Hbody. destruct Hbody as [w [Hw Hset]].
      apply bind_Ok in Hw. destruct Hw as [w' [Hget Hw]].
      simpl in Hw. injection Hw as <-.
      eapply setitem_unchanged; eassumption.
    + exfalso. rewrite split_dot_last in Hreach.
      apply lookup_path_last in Hreach. destruct Hreach as [y [Hreach Hget]].
      rewrite deserialize_sub_object_S in Hrun.
      assert (Hok : forall path x,
                lookup_path path x = Some y ->
                is_ok (inside path x (fun dict_ =>
                  v <- (elements_class <- first_class (PyClass name init :: classes) ;;
                        array <- getitem dict_ (last (split_dot namespace) "") ;;
                        _deserialize_array base (S depth) elements_class array) ;;
                  setitem dict_ (last (split_dot namespace) "") v)) = true).
      { induction path as [|key path IH]; simpl; intros x Hx.
        - injection Hx as ->. rewrite Hget. simpl.
          apply getitem_Ok in Hget. now destruct Hget as [d [-> _]].
        - destruct x; try discriminate. simpl.
          destruct (dict_get fields key) as [w|]; [|discriminate]. simpl.
          specialize (IH w Hx). simpl in IH.
          match goal with
          | H : is_ok ?t = true |- is_ok (bind ?t' _) = true =>
              change t' with t; destruct t; [reflexivity | discriminate]
          end. }
      specialize (Hok _ _ Hreach). rewrite Hrun in Hok. discriminate.
Qed.

Lemma ill_formed_entries_witness :
  _deserialize_sub_object PyNone 2 "tags" (Single Text)
    (JObject [("tags", JArray [])])
  = Raise (AttributeError "sub_objects").
Proof.
  apply (proj1 (proj2 (ill_formed_entries PyNone 0 "tags"
                         (JObject [("tags", JArray [])])))
           Text (JArray [])); reflexivity.
Defined.

(** ** When a call succeeds *)


Lemma starred_none (k : kind) (sig : signature) (received : json)
    (nothing : bool) :
  has_kind k sig = false -> starred k sig received nothing = [].
Proof.
  unfold starred, has_kind. intros Hkind.
  destruct (filter (of_kind k) sig) as [|f rest] eqn:Hf; [reflexivity|].
  assert (Hin : In f (filter (of_kind k) sig)) by (rewrite Hf; now left).
  apply filter_In in Hin. destruct Hin as [Hin Hk].
  assert (Hex : existsb (of_kind k) sig = true)
    by (apply existsb_exists; eauto).
  congruence.
Qed.



(** ** What [deserialize] hands to a plain object class *)




(** ** Documents that are no mapping *)

Lemma init_args_loop_scalars (params : list string) (dict_ : json)
    (items : list json) (init_args : pydict) :
  forallb is_scalar items = true ->
  init_args_loop params dict_ items init_args = Ok init_args.
Proof.
  induction items as [|item items IH]; simpl; intros H; [reflexivity|].
  apply andb_true_iff in H. destruct H as [Hitem Hitems].
  destruct item; try discriminate; now apply IH.
Qed.

(** X9: a plain object class without sub-objects does not ask for a
    mapping.  A decoded [None], boolean or number makes [deserialize]
    raise the [TypeError] of iterating over it in [_get_init_args]; a
    decoded array of such values is iterated without a match, and the class
    is called with no argument at all. *)
Theorem plain_object_from_non_mapping
    (json_loads : string -> option json) (base : pyclass) (depth : nat)
    (name : string) (init : list parameter)
    (text : string) (json_data : json) :
  json_loads text = Some json_data ->
  (is_scalar json_data = true ->
   deserialize json_loads base (S depth) (SdkObjectClass name init []) text
   = Raise (TypeError NotIterable)) /\
  (forall items,
     json_data = JArray items -> forallb is_scalar items = true ->
     deserialize json_loads base (S depth) (SdkObjectClass name init []) text
     = call (SdkObjectClass name init []) [] []).
Proof.
  intros Hparse. unfold deserialize. rewrite Hparse. split.
  - intros Hscalar. destruct json_data; try discriminate; reflexivity.
  - intros items -> Hitems. unfold deserialize_json_data, SdkObjectClass.
    cbn [_deserialize_dict get_sub_objects bind foldM].
    unfold _get_init_args. cbn [iterate bind].
    now rewrite init_args_loop_scalars.
Qed.

Lemma plain_object_from_non_mapping_witness :
  deserialize loads_sample PyNone 1 (SdkObjectClass "Owner" [required "name"] [])
    "null"
  = Raise (TypeError NotIterable).
Proof.
  apply (plain_object_from_non_mapping loads_sample PyNone 0
           "Owner" [required "name"] "null" JNull);
    reflexivity.
Defined.

(** ** Collections of plain objects *)

Lemma call_one_positional (class_ : pyclass) (p : parameter)
    (others : list parameter) (x : json) :
  class_ <> PyNone ->
  signature_of class_ = conventional (p :: others) ->
  forallb has_default others = true ->
  call class_ [x] [] = Ok (Instance class_ [(pname p, x)]).
Proof.
  intros Hclass Hsig Hothers.
  assert (Hpositional :
            missing is_positional (map formal_of (p :: others))
              [(pname p, x)] = []).
  { apply missing_nil. intros f Hin _ Hreq.
    destruct Hin as [<-|Hin]; [now left|].
    apply in_map_iff in Hin. destruct Hin as [q [<- Hq]].
    rewrite forallb_forall in Hothers. simpl in Hreq.
    rewrite (Hothers q Hq) in Hreq. discriminate. }
  assert (Hkeyword :
            missing (of_kind KeywordOnly) (conventional (p :: others))
              [(pname p, x)] = []).
  { apply missing_nil. intros f Hin Hkind _. exfalso.
    unfold conventional in Hin. destruct Hin as [<-|Hin]; [discriminate|].
    apply in_map_iff in Hin. destruct Hin as [q [<- _]]. discriminate. }
  assert (Hbody :
    call class_ [x] []
    = (let sig := conventional (p :: others) in
       let slots := fnames (filter is_positional sig) in
       let positional := combine (skipn 1 slots) [x] in
       let excess := skipn (List.length (skipn 1 slots)) [x] in
       binding <- bind_keywords sig (receiver sig) positional [] [] ;;
       let bound := fst binding in
       let extra := snd binding in
       if Nat.ltb (List.length slots) (S (List.length [x]))
          && negb (has_kind VarPositional sig)
       then Raise (TypeError TooManyPositional)
       else match missing is_positional (drop_receiver sig) bound with
            | (_ :: _) as required =>
                Raise (TypeError (MissingRequired required))
            | [] =>
                match missing (of_kind KeywordOnly) sig bound with
                | (_ :: _) as required =>
                    Raise (TypeError (MissingRequired required))
                | [] =>
                    Ok (Instance class_
                          (bound
                           ++ starred VarPositional sig (JArray excess)
                                (Nat.eqb (List.length excess) 0)
                           ++ starred VarKeyword sig (JObject extra)
                                (Nat.eqb (List.length extra) 0)))
                end
            end)).
  { destruct class_; [congruence| | |]; simpl in Hsig; subst init;
      reflexivity. }
  rewrite Hbody. cbv zeta.
  rewrite conventional_positional, conventional_names,
    conventional_drop_receiver.
  cbn [skipn names map combine List.length bind_keywords bind fst snd].
  rewrite combine_no_args.
  rewrite (conventional_has_no_kind VarPositional) by discriminate.
  cbn [Nat.ltb Nat.leb andb negb].
  cbn [map] in Hpositional. rewrite Hpositional, Hkeyword.
  rewrite !starred_none by (apply conventional_has_no_kind; discriminate).
  reflexivity.
Qed.

(** X10: the elements of a collection are not filtered.  For a collection
    class whose [__init__] takes the elements as its first parameter, the
    others having defaults, and whose elements class is a plain object class
    without sub-objects, [deserialize] builds the collection from the
    decoded array as it is: the elements are the decoded mappings, no
    key dropped, and none of them is made an instance. *)
Theorem collection_elements_as_decoded
    (json_loads : string -> option json) (base : pyclass) (depth : nat)
    (name : string) (p : parameter) (others : list parameter)
    (sub_objects : schema) (element_name : string)
    (element_init : list parameter) (text : string) (items : list json) :
  json_loads text = Some (JArray items) ->
  forallb has_default others = true ->
  deserialize json_loads base (S (S depth))
    (SdkCollectionClass name (p :: others) sub_objects
       (SdkObjectClass element_name element_init [])) text
  = Ok (Instance (SdkCollectionClass name (p :: others) sub_objects
                    (SdkObjectClass element_name element_init []))
          [(pname p, JArray items)]).
Proof.
  intros Hparse Hothers. unfold deserialize. rewrite Hparse.
  unfold deserialize_json_data, SdkCollectionClass, SdkObjectClass.
  cbn [_deserialize_array iterate bind]. rewrite mapM_no_sub_objects.
  cbn [bind]. eapply call_one_positional; [discriminate | reflexivity | assumption].
Qed.

Lemma collection_elements_as_decoded_witness :
  deserialize loads_array PyNone 2 Owners
    ("[{" ++ quoted "name" ++ ": 1, " ++ quoted "x" ++ ": 9}]")
  = Ok (Instance Owners
          [("elements", JArray [JObject [("name", JInt 1); ("x", JInt 9)]])]).
Proof.
  apply (collection_elements_as_decoded loads_array PyNone 0
           "Owners" (required "elements") [] [] "Owner" [required "name"]
           ("[{" ++ quoted "name" ++ ": 1, " ++ quoted "x" ++ ": 9}]"));
    reflexivity.
Defined.

(** ** Splitting a namespace *)

Lemma join_dot_cons (w : string) (ws : list string) :
  ws <> [] -> join_dot (w :: ws) = (w ++ "." ++ join_dot ws)%string.
Proof. destruct ws; [congruence | reflexivity]. Qed.

Lemma join_dot_push (c : ascii) (w : string) (ws : list string) :
  join_dot (String c w :: ws) = String c (join_dot (w :: ws)).
Proof. destruct ws; reflexivity. Qed.

Lemma join_split_dot (s : string) : join_dot (split_dot s) = s.
Proof.
  induction s as [|c s IH]; [reflexivity|]. simpl.
  destruct (Ascii.eqb_spec c ".") as [->|Hne].
  - rewrite join_dot_cons by apply split_dot_not_nil. simpl. now rewrite IH.
  - destruct (split_dot s) as [|w ws] eqn:Hsplit.
    + now destruct (split_dot_not_nil s).
    + rewrite join_dot_push. now rewrite IH.
Qed.

Lemma split_dot_segments (s : string) :
  Forall (fun w => has_dot w = false) (split_dot s).
Proof.
  induction s as [|c s IH]; simpl.
  - repeat constructor.
  - destruct (Ascii.eqb c ".") eqn:Hc.
    + constructor; [reflexivity | assumption].
    + destruct (split_dot s) as [|w ws].
      * repeat constructor. simpl. now rewrite Hc.
      * inversion IH; subst. constructor; [|assumption].
        simpl. now rewrite Hc.
Qed.

Lemma split_dot_no_dot (w : string) :
  has_dot w = false -> split_dot w = [w].
Proof.
  induction w as [|c w IH]; simpl; [reflexivity|].
  destruct (Ascii.eqb c "."); [discriminate|].
  intros H. now rewrite (IH H).
Qed.

Lemma split_dot_prepend (w s : string) :
  has_dot w = false ->
  split_dot (w ++ "." ++ s) = w :: split_dot s.
Proof.
  induction w as [|c w IH]; simpl; [reflexivity|].
  destruct (Ascii.eqb c "."); [discriminate|].
  intros H. simpl in IH. now rewrite (IH H).
Qed.

(** X11: [namespace.split('.')] and the keys of a path.  The list of keys
    is never empty, so its last item is there; no key holds a dot; joining
    the keys with dots gives the namespace back; and any non-empty list of
    keys without dots is the split of its join: a namespace names one
    path only. *)
Theorem split_dot_join_dot (namespace : string) :
  split_dot namespace <> [] /\
  Forall (fun key => has_dot key = false) (split_dot namespace) /\
  join_dot (split_dot namespace) = namespace /\
  (forall path,
     path <> [] -> Forall (fun key => has_dot key = false) path ->
     split_dot (join_dot path) = path).
Proof.
  split; [apply split_dot_not_nil|].
  split; [apply split_dot_segments|].
  split; [apply join_split_dot|].
  intros path. induction path as [|w ws IH]; intros Hne Hsegments; [congruence|].
  inversion Hsegments as [|? ? Hw Hws]; subst.
  destruct ws as [|w' ws].
  - simpl. now apply split_dot_no_dot.
  - rewrite join_dot_cons by discriminate.
    rewrite split_dot_prepend by assumption.
    f_equal. apply IH; [discriminate | assumption].
Qed.

Lemma split_dot_join_dot_witness :
  split_dot (join_dot ["meta"; "owner"]) = ["meta"; "owner"].
Proof.
  apply (proj2 (proj2 (proj2 (split_dot_join_dot "meta.owner")))).
  - discriminate.
  - repeat constructor.
Defined.

(** ** Enough depth *)

Lemma bind_finishes {A B : Type} (r : result A) (k : A -> result B) :
  finishes r -> (forall a, r = Ok a -> finishes (k a)) -> finishes (bind r k).
Proof.
  unfold finishes. intros Hr Hk. destruct r as [a|e]; simpl.
  - now apply Hk.
  - intros H. apply Hr. now injection H as ->.
Qed.

Lemma mapM_finishes {A B : Type} (f : A -> result B) (l : list A) :
  (forall x, In x l -> finishes (f x)) -> finishes (mapM f l).
Proof.
  induction l as [|x l IH]; simpl; intros Hf; [discriminate|].
  apply bind_finishes; [apply Hf; now left|]. intros y _.
  apply bind_finishes; [apply IH; intros z Hz; apply Hf; now right|].
  intros ys _. discriminate.
Qed.

Lemma foldM_finishes {A S : Type} (f : S -> A -> result S) (good : S -> Prop)
    (l : list A) :
  (forall s x, good s -> finishes (f s x)) ->
  (forall s x s', good s -> f s x = Ok s' -> good s') ->
  forall s, good s -> finishes (foldM f l s).
Proof.
  intros Hf Hgood. induction l as [|x l IH]; simpl; intros s Hs; [discriminate|].
  apply bind_finishes; [now apply Hf|].
  intros s' Hs'. apply IH. eapply Hgood; eassumption.
Qed.

Lemma getitem_finishes (x : json) (key : string) : finishes (getitem x key).
Proof.
  destruct x; simpl; try discriminate.
  destruct (dict_get fields key); discriminate.
Qed.

Lemma setitem_finishes (x : json) (key : string) (v : json) :
  finishes (setitem x key v).
Proof. destruct x; discriminate. Qed.

Lemma rank_value (d : pydict) (key : string) (v : json) :
  dict_get d key = Some v -> rank v < rank (JObject d).
Proof.
  simpl. induction d as [|[k w] d IH]; simpl; [discriminate|].
  destruct (String.eqb k key); intros H.
  - injection H as ->. lia.
  - specialize (IH H). lia.
Qed.

Lemma rank_set (d : pydict) (key : string) (v : json) (n : nat) :
  rank (JObject d) <= n -> rank v < n ->
  rank (JObject (dict_set d key v)) <= n.
Proof.
  simpl. induction d as [|[k w] d IH]; simpl; intros Hd Hv; [lia|].
  destruct (String.eqb k key); simpl.
  - lia.
  - assert (S (fold_right (fun item m => Nat.max (rank (snd item)) m) 0
                  (dict_set d key v)) <= n) by (apply IH; lia).
    lia.
Qed.

Lemma rank_element (items : list json) (el : json) :
  In el items -> element_rank el < rank (JArray items).
Proof.
  unfold element_rank. cbn [rank].
  induction items as [|x items IH]; cbn [fold_right In]; [contradiction|].
  intros [->|Hin]; [lia|]. specialize (IH Hin). lia.
Qed.

Lemma rank_strings (l : list string) : rank (JArray (map JString l)) = 1.
Proof.
  simpl. induction l as [|s l IH]; simpl; [reflexivity|].
  injection IH as IH. now rewrite IH.
Qed.

Lemma rank_all_strings (items : list json) :
  Forall (fun item => exists w, item = JString w) items ->
  rank (JArray items) = 1.
Proof.
  induction 1 as [|x l [w ->] _ IH]; simpl; [reflexivity|].
  simpl in IH. injection IH as IH. now rewrite IH.
Qed.

Lemma rank_chars (s : string) : rank (JArray (chars s)) = 1.
Proof. apply rank_all_strings, chars_strings. Qed.

Lemma element_rank_le (el : json) : element_rank el <= rank el.
Proof. destruct el; simpl; lia. Qed.

Lemma rank_mapping_positive (d : pydict) : 1 <= rank (JObject d).
Proof. simpl. lia. Qed.

Lemma rank_array_le (l l' : list json) :
  Forall2 (fun el el' => element_rank el' <= element_rank el) l l' ->
  rank (JArray l') <= rank (JArray l).
Proof.
  unfold element_rank. cbn [rank].
  induction 1 as [|el el' l l' Hel _ IH]; cbn [fold_right]; lia.
Qed.

Lemma rank_iterate (x : json) (items : list json) :
  iterate x = Ok items -> rank (JArray items) <= rank x.
Proof.
  destruct x; simpl; try discriminate; intros H; injection H as <-.
  - pose proof (rank_chars s) as Hc. simpl in Hc. lia.
  - lia.
  - pose proof (rank_strings (keys fields)) as Hk. simpl in Hk. lia.
Qed.

Lemma inside_finishes (path : list string) (body : json -> result json) (x : json) :
  (forall y, rank y <= rank x -> finishes (body y)) ->
  finishes (inside path x body).
Proof.
  revert x. induction path as [|key path IH]; simpl; intros x Hbody.
  - apply Hbody. lia.
  - apply bind_finishes; [apply getitem_finishes|]. intros inner Hget.
    apply getitem_Ok in Hget. destruct Hget as [d [-> Hget]].
    apply rank_value in Hget.
    apply bind_finishes; [|intros; apply setitem_finishes].
    apply IH. intros y Hy. apply Hbody. lia.
Qed.

Lemma inside_rank (path : list string) (body : json -> result json) :
  (forall y r, body y = Ok r -> rank r <= rank y) ->
  forall x r, inside path x body = Ok r -> rank r <= rank x.
Proof.
  intros Hbody. induction path as [|key path IH]; simpl; intros x r H.
  - now apply Hbody.
  - apply bind_Ok in H. destruct H as [inner [Hget H]].
    apply bind_Ok in H. destruct H as [inner' [Hin Hset]].
    apply IH in Hin.
    apply getitem_Ok in Hget. destruct Hget as [d [-> Hget]].
    apply rank_value in Hget.
    simpl in Hset. injection Hset as <-.
    apply rank_set; lia.
Qed.

Section EnoughDepth.

Variable base : pyclass.

(** On a value that is no mapping an entry raises at its first subscript,
    or at [class_[0]]. *)
Lemma sub_object_non_mapping (depth : nat) (namespace : string)
    (class_ : nested pyclass) (x : json) :
  reaches_mapping [] x = false ->
  exists e,
    _deserialize_sub_object base (S depth) namespace class_ x = Raise e /\
    e <> RecursionError.
Proof.
  intros Hx. rewrite deserialize_sub_object_S.
  destruct (removelast (split_dot namespace)) as [|key path]; simpl.
  - destruct class_ as [c|[|c cs]]; simpl;
      try rewrite (getitem_not_mapping x _ Hx); simpl;
      eexists; (split; [reflexivity | discriminate]).
  - rewrite (getitem_not_mapping x key Hx). simpl.
    eexists. split; [reflexivity | discriminate].
Qed.

Lemma resolve_all_non_mapping (depth : nat) (entries : schema) (x : json) :
  reaches_mapping [] x = false ->
  finishes (resolve_all base (S depth) entries x) /\
  (forall r, resolve_all base depth entries x = Ok r -> r = x).
Proof.
  intros Hx. unfold resolve_all.
  destruct entries as [|entry entries]; cbn [foldM].
  - split; [discriminate|]. intros r H. now injection H.
  - split.
    + destruct (sub_object_non_mapping depth (fst entry) (snd entry) x Hx)
        as [e [He Hne]].
      rewrite He. simpl. intros H. apply Hne. now injection H.
    + intros r H. exfalso. destruct depth as [|depth]; [discriminate|].
      destruct (sub_object_non_mapping depth (fst entry) (snd entry) x Hx)
        as [e [He _]].
      rewrite He in H. discriminate.
Qed.

Lemma dict_non_mapping (depth : nat) (class_ : pyclass) (x : json) :
  reaches_mapping [] x = false ->
  finishes (_deserialize_dict base (S (S depth)) class_ x) /\
  (forall r, _deserialize_dict base depth class_ x = Ok r -> r = x).
Proof.
  intros Hx. split.
  - change (_deserialize_dict base (S (S depth)) class_ x)
      with (sub_objects <- get_sub_objects class_ ;;
            resolve_all base (S depth) sub_objects x).
    apply bind_finishes; [destruct class_; discriminate|].
    intros sub_objects _. now apply resolve_all_non_mapping.
  - intros r H. destruct depth as [|depth]; [discriminate|].
    change (_deserialize_dict base (S depth) class_ x)
      with (sub_objects <- get_sub_objects class_ ;;
            resolve_all base depth sub_objects x) in H.
    apply bind_Ok in H. destruct H as [sub_objects [_ H]].
    revert H. now apply resolve_all_non_mapping.
Qed.

(** No function returns a document of greater rank. *)
Lemma rank_not_raised (depth : nat) :
  (forall class_ x r,
     _deserialize_dict base depth class_ x = Ok r -> rank r <= rank x) /\
  (forall namespace class_ x r,
     _deserialize_sub_object base depth namespace class_ x = Ok r ->
     rank r <= rank x) /\
  (forall class_ x r,
     _deserialize_array base depth class_ x = Ok r -> rank r <= rank x).
Proof.
  induction depth as [|depth [IHdict [IHsub IHarray]]].
  - repeat split; intros; simpl in *; discriminate.
  - split; [|split].
    + intros class_ x r H. simpl in H.
      apply bind_Ok in H. destruct H as [sub_objects [_ H]].
      revert x r H. induction sub_objects as [|entry entries IH]; simpl;
        intros x r H.
      * injection H as <-. lia.
      * apply bind_Ok in H. destruct H as [y [Hstep Hrest]].
        apply IHsub in Hstep. apply IH in Hrest. lia.
    + intros namespace class_ x r H. rewrite deserialize_sub_object_S in H.
      revert x r H. apply inside_rank. intros y r H.
      apply bind_Ok in H. destruct H as [v [Hv Hset]].
      assert (Hvalue : exists d w,
                y = JObject d /\
                dict_get d (last (split_dot namespace) "") = Some w /\
                rank v <= rank w).
      { destruct class_ as [c|cs].
        - apply bind_Ok in Hv. destruct Hv as [w [Hget Hv]].
          apply getitem_Ok in Hget. destruct Hget as [d [-> Hget]].
          apply IHdict in Hv. eauto.
        - apply bind_Ok in Hv. destruct Hv as [c [_ Hv]].
          apply bind_Ok in Hv. destruct Hv as [w [Hget Hv]].
          apply getitem_Ok in Hget. destruct Hget as [d [-> Hget]].
          apply IHarray in Hv. eauto. }
      destruct Hvalue as [d [w [-> [Hget Hle]]]].
      apply rank_value in Hget.
      simpl in Hset. injection Hset as <-.
      apply rank_set; lia.
    + intros class_ x r H. simpl in H. destruct class_.
      * discriminate.
      * injection H as <-. lia.
      * apply bind_Ok in H. destruct H as [items [Hitems H]].
        apply bind_Ok in H. destruct H as [elements [Hmap H]].
        injection H as <-.
        apply rank_iterate in Hitems.
        apply mapM_Forall2 in Hmap.
        assert (Hle : rank (JArray elements) <= rank (JArray items)).
        { apply rank_array_le. eapply Forall2_impl; [|exact Hmap].
          intros el el' Hel. cbn beta in Hel.
          destruct (reaches_mapping [] el) eqn:Hshape.
          - apply IHdict in Hel. pose proof (element_rank_le el').
            destruct el; try discriminate. unfold element_rank at 2. lia.
          - destruct (dict_non_mapping depth
                        (ObjectClass name init sub_objects) el Hshape)
              as [_ Hsame].
            rewrite (Hsame _ Hel). lia. }
        lia.
      * eapply IHarray. eassumption.
Qed.

End EnoughDepth.

Section Finishes.

Variable base : pyclass.
Hypothesis base_no_collection : is_collection base = false.

(** The items of a value of rank at most [h]: strings and other values
    that are no mapping need two levels, a mapping is of lesser rank. *)
Lemma items_finish (h depth : nat) (class_ : pyclass) (x : json)
    (items : list json) :
  (forall y, rank y < h ->
     forall depth' class', 4 * rank y + 2 <= depth' ->
       finishes (_deserialize_dict base depth' class' y)) ->
  rank x <= h -> 4 * h + 2 <= depth ->
  iterate x = Ok items ->
  forall item, In item items ->
    finishes (_deserialize_dict base depth class_ item).
Proof.
  intros IH Hx Hdepth Hitems item Hin.
  destruct (reaches_mapping [] item) eqn:Hshape.
  - destruct item; try discriminate.
    destruct x; simpl in Hitems; try discriminate; injection Hitems as <-.
    + exfalso. pose proof (chars_strings s) as Hs.
      rewrite Forall_forall in Hs. destruct (Hs _ Hin) as [w Hw].
      discriminate.
    + apply rank_element in Hin. unfold element_rank in Hin.
      apply IH; lia.
    + exfalso. apply in_map_iff in Hin. destruct Hin as [k [Hk _]].
      discriminate.
  - destruct depth as [|[|depth]]; try lia.
    now apply dict_non_mapping.
Qed.

Lemma enough_depth (h : nat) :
  forall x, rank x <= h ->
    (forall depth namespace class_, 4 * h + 1 <= depth ->
       finishes (_deserialize_sub_object base depth namespace class_ x)) /\
    (forall depth class_, 4 * h + 2 <= depth ->
       finishes (_deserialize_dict base depth class_ x)) /\
    (forall depth class_, 4 * h + 4 <= depth ->
       finishes (_deserialize_array base depth class_ x)).
Proof.
  induction h as [h IH] using lt_wf_ind.
  assert (IHdict : forall y, rank y < h ->
            forall depth class_, 4 * rank y + 2 <= depth ->
              finishes (_deserialize_dict base depth class_ y)).
  { intros y Hy depth class_ Hdepth.
    destruct (IH (rank y) Hy y (le_n _)) as [_ [Hdict _]]. now apply Hdict. }
  assert (IHarray : forall y, rank y < h ->
            forall depth class_, 4 * rank y + 4 <= depth ->
              finishes (_deserialize_array base depth class_ y)).
  { intros y Hy depth class_ Hdepth.
    destruct (IH (rank y) Hy y (le_n _)) as [_ [_ Harray]]. now apply Harray. }
  assert (Hsub : forall x, rank x <= h ->
            forall depth namespace class_, 4 * h + 1 <= depth ->
              finishes (_deserialize_sub_object base depth namespace class_ x)).
  { intros x Hx depth namespace class_ Hdepth.
    destruct depth as [|depth]; [lia|].
    rewrite deserialize_sub_object_S. apply inside_finishes.
    intros y Hy. apply bind_finishes; [|intros; apply setitem_finishes].
    destruct class_ as [c|cs].
    - apply bind_finishes; [apply getitem_finishes|]. intros v Hget.
      apply getitem_Ok in Hget. destruct Hget as [d [-> Hget]].
      apply rank_value in Hget. apply IHdict; lia.
    - apply bind_finishes; [destruct cs; discriminate|]. intros c _.
      apply bind_finishes; [apply getitem_finishes|]. intros v Hget.
      apply getitem_Ok in Hget. destruct Hget as [d [-> Hget]].
      apply rank_value in Hget. apply IHarray; lia. }
  intros x Hx. split; [now apply Hsub|]. split.
  - intros depth class_ Hdepth. destruct depth as [|depth]; [lia|].
    change (_deserialize_dict base (S depth) class_ x)
      with (sub_objects <- get_sub_objects class_ ;;
            resolve_all base depth sub_objects x).
    apply bind_finishes; [destruct class_; discriminate|].
    intros sub_objects _. unfold resolve_all.
    apply (foldM_finishes _ (fun s => rank s <= h)).
    + intros s entry Hs. apply Hsub; [assumption | lia].
    + intros s entry s' Hs Hstep.
      destruct (rank_not_raised base depth) as [_ [Hrank _]].
      apply Hrank in Hstep. lia.
    + assumption.
  - assert (Hplain : forall depth class_,
              is_collection class_ = false -> 4 * h + 3 <= depth ->
              finishes (_deserialize_array base depth class_ x)).
    { intros depth class_ Hclass Hdepth. destruct depth as [|depth]; [lia|].
      destruct class_; try discriminate.
      change (_deserialize_array base (S depth)
                (ObjectClass name init sub_objects) x)
        with (items <- iterate x ;;
              elements <- mapM (_deserialize_dict base depth
                                  (ObjectClass name init sub_objects)) items ;;
              Ok (JArray elements)).
      apply bind_finishes; [destruct x; discriminate|]. intros items Hitems.
      apply bind_finishes; [|discriminate].
      apply mapM_finishes.
      apply (items_finish h depth _ x items); try assumption; lia. }
    intros depth class_ Hdepth.
    destruct (is_collection class_) eqn:Hclass; [|apply Hplain; [assumption | lia]].
    destruct depth as [|depth]; [lia|].
    destruct class_; try discriminate.
    change (_deserialize_array base (S depth)
              (CollectionClass name init sub_objects class_) x)
      with (_deserialize_array base depth base x).
    apply Hplain; [exact base_no_collection | lia].
Qed.

End Finishes.

Lemma init_args_loop_finishes (params : list string) (dict_ : json)
    (items : list json) (init_args : pydict) :
  finishes (init_args_loop params dict_ items init_args).
Proof.
  revert init_args. induction items as [|item items IH]; intros init_args;
    simpl; [discriminate|].
  destruct item; try apply IH; try discriminate.
  destruct (mem s params); [|apply IH].
  apply bind_finishes; [apply getitem_finishes | intros; apply IH].
Qed.

Lemma call_finishes (class_ : pyclass) (args : list json) (kwargs : pydict) :
  finishes (call class_ args kwargs).
Proof.
  unfold finishes. destruct (call class_ args kwargs) as [v|e] eqn:Hcall;
    [discriminate|].
  apply call_raises in Hcall. destruct Hcall as [why ->]. discriminate.
Qed.

(** X12: unless the [elements_class] of the base class is a collection
    class, [deserialize] finishes.  With four levels of depth for each
    level of mappings and arrays in the decoded document, and four more,
    it does not raise [RecursionError], and what it returns or raises is
    the same at any greater depth. *)
Theorem deserialize_finishes
    (json_loads : string -> option json) (base : pyclass)
    (class_ : pyclass) (text : string) (json_data : json) :
  is_collection base = false ->
  json_loads text = Some json_data ->
  exists r,
    r <> Raise RecursionError /\
    forall depth, 4 * rank json_data + 4 <= depth ->
      deserialize json_loads base depth class_ text = r.
Proof.
  intros Hbase Hparse.
  destruct (enough_depth base Hbase (rank json_data) json_data (le_n _))
    as [_ [Hdict Harray]].
  assert (Hfinishes : forall depth, 4 * rank json_data + 4 <= depth ->
            finishes (deserialize json_loads base depth class_ text)).
  { intros depth Hdepth. unfold deserialize. rewrite Hparse.
    unfold deserialize_json_data. destruct class_; try discriminate.
    - apply bind_finishes; [apply Hdict; lia|]. intros dict_ _.
      apply bind_finishes.
      + unfold _get_init_args. apply bind_finishes; [destruct dict_; discriminate|].
        intros items _. apply init_args_loop_finishes.
      + intros init_args _. apply call_finishes.
    - apply bind_finishes; [apply Harray; lia|]. intros elements _.
      apply call_finishes. }
  exists (deserialize json_loads base (4 * rank json_data + 4) class_ text).
  split; [apply Hfinishes; lia|].
  intros depth Hdepth.
  destruct (deeper_levels base _ _ Hdepth) as [Hsame_dict Hsame_array].
  pose proof (Hfinishes _ (le_n _)) as Hsettled.
  unfold deserialize in *. rewrite Hparse in *.
  unfold deserialize_json_data in *. destruct class_; try reflexivity.
  - eapply bind_settles; [reflexivity | exact Hsettled | |].
    + intros Hd. eapply Hsame_dict; [reflexivity | exact Hd].
    + intros dict_ out Hout _. exact Hout.
  - eapply bind_settles; [reflexivity | exact Hsettled | |].
    + intros Ha. eapply Hsame_array; [reflexivity | exact Ha].
    + intros elements out Hout _. exact Hout.
Qed.

Lemma deserialize_finishes_witness :
  exists r,
    r <> Raise RecursionError /\
    forall depth, 4 * rank (JObject [("a", JInt 1)]) + 4 <= depth ->
      deserialize loads_sample PyNone depth Account
        ("{" ++ quoted "a" ++ ": 1}") = r.
Proof.
  apply (deserialize_finishes loads_sample PyNone Account
           ("{" ++ quoted "a" ++ ": 1}") (JObject [("a", JInt 1)]));
    reflexivity.
Defined.

(** ** What an array marker does to a value that is no array *)

Lemma inside_update (path : list string) (body : json -> result json)
    (x y y' : json) :
  lookup_path path x = Some y -> body y = Ok y' ->
  exists r, inside path x body = Ok r /\ lookup_path path r = Some y'.
Proof.
  revert x. induction path as [|key path IH]; simpl; intros x Hreach Hbody.
  - injection Hreach as ->. eauto.
  - destruct x; try discriminate. simpl.
    destruct (dict_get fields key) as [inner|] eqn:Hget; [|discriminate].
    destruct (IH inner Hreach Hbody) as [inner' [Hrun Hlook]].
    simpl. rewrite Hrun. simpl. eexists. split; [reflexivity|].
    cbn [lookup_path]. now rewrite dict_get_set, String.eqb_refl.
Qed.

(** X13: an array marker takes whatever can be iterated.  Where the path
    of an entry resolves to a value that Python can iterate over, an array
    marker of a plain object class without sub-objects replaces that value
    by the array of its items: a mapping by the array of its keys, a
    string by the array of its characters; no exception is raised, and the
    mappings on the way keep their keys. *)
Theorem array_marker_iterates_value
    (base : pyclass) (depth : nat) (namespace : string)
    (name : string) (init : list parameter) (classes : list pyclass)
    (dict_ v : json) (items : list json) :
  lookup_path (split_dot namespace) dict_ = Some v ->
  iterate v = Ok items ->
  exists r,
    _deserialize_sub_object base (S (S (S depth))) namespace
      (Marker (SdkObjectClass name init [] :: classes)) dict_ = Ok r /\
    lookup_path (split_dot namespace) r = Some (JArray items) /\
    same_keys dict_ r.
Proof.
  intros Hreach Hitems. unfold SdkObjectClass.
  rewrite split_dot_last in Hreach.
  apply lookup_path_last in Hreach. destruct Hreach as [y [Hreach Hget]].
  pose proof Hget as Hshape. apply getitem_Ok in Hshape.
  destruct Hshape as [d [-> Hd]].
  rewrite deserialize_sub_object_S.
  match goal with
  | |- exists r, inside ?path dict_ ?body = Ok r /\ _ =>
      destruct (inside_update path body dict_ (JObject d)
                  (JObject (dict_set d (last (split_dot namespace) "")
                              (JArray items))))
        as [r [Hrun Hlook]]; [exact Hreach| |]
  end.
  - cbn beta. cbn [first_class bind]. rewrite Hget. cbn [bind].
    cbn [_deserialize_array]. rewrite Hitems. cbn [bind].
    rewrite mapM_no_sub_objects. reflexivity.
  - exists r. split; [exact Hrun|]. split.
    + rewrite split_dot_last at 1. rewrite lookup_path_app, Hlook.
      simpl. now rewrite dict_get_set, String.eqb_refl.
    + apply (deserialize_sub_object_same_keys base (S (S (S depth))) namespace
               (Marker (ObjectClass name (conventional init) [] :: classes))).
      rewrite deserialize_sub_object_S. exact Hrun.
Qed.

Lemma array_marker_iterates_value_witness :
  (exists r,
     _deserialize_sub_object PyNone 3 "tags" (Marker [Owner])
       (JObject [("tags", JObject [("a", JInt 1); ("b", JNull)])]) = Ok r /\
     lookup_path ["tags"] r = Some (JArray [JString "a"; JString "b"]) /\
     same_keys (JObject [("tags", JObject [("a", JInt 1); ("b", JNull)])]) r) /\
  (exists r,
     _deserialize_sub_object PyNone 3 "tags" (Marker [Owner])
       (JObject [("tags", JString accented)]) = Ok r /\
     lookup_path ["tags"] r = Some (JArray [JString acute_e; JString "t"]) /\
     same_keys (JObject [("tags", JString accented)]) r).
Proof.
  split.
  - apply (array_marker_iterates_value PyNone 0 "tags" "Owner" [required "name"]
             [] (JObject [("tags", JObject [("a", JInt 1); ("b", JNull)])])
             (JObject [("a", JInt 1); ("b", JNull)]));
      reflexivity.
  - apply (array_marker_iterates_value PyNone 0 "tags" "Owner" [required "name"]
             [] (JObject [("tags", JString accented)]) (JString accented));
      reflexivity.
Defined.
